(** * gitup: the update engine ([gitup/update.py])

    A shallow embedding of the module that classifies directories,
    decides whether a pull is safe and reports what it did, followed by
    the properties of it that the specification states.

    Python values are modelled as follows.
    - [str] (a Python 2 byte string, which is also what
      [subprocess.check_output] returns) is [string]; comparison is
      byte-wise lexicographic.
    - Exceptions are the constructors of [exn]; a call either returns a
      value or raises one of them.
    - The operating system (file system, current directory, child
      processes) is a record of oracles [Host] over an arbitrary state
      [X] of the outside world, so that every theorem holds whatever
      the file system and [git] answer.
    - The names imported from [gitup.output] are parameters: the four
      styling functions are fields of [Host], and a call [out(level,
      msg)] is recorded as the event [Out level msg]. *)

From Stdlib Require Import String Ascii List Arith Lia Bool.
From Stdlib Require Import DecimalString DecimalNat Permutation Sorted.
From stdpp Require Import base list sorting.

Import ListNotations.
Local Open Scope list_scope.
Local Open Scope string_scope.

(** ** Python strings *)

Module Py.

(** [bool(s)] for a string: non-empty. *)
Definition truthy (s : string) : bool :=
  match s with
  | EmptyString => false
  | String _ _ => true
  end.

(** [s[:-1]]: all but the last character (empty stays empty). *)
Fixpoint slice_to_minus1 (s : string) : string :=
  match s with
  | EmptyString => EmptyString
  | String c EmptyString => EmptyString
  | String c r => String c (slice_to_minus1 r)
  end.

(** [s.startswith(p)] *)
Fixpoint startswith (s p : string) : bool :=
  match p, s with
  | EmptyString, _ => true
  | String _ _, EmptyString => false
  | String a p', String b s' => Ascii.eqb a b && startswith s' p'
  end.

Fixpoint rev_onto (s acc : string) : string :=
  match s with
  | EmptyString => acc
  | String c r => rev_onto r (String c acc)
  end.

Definition reversed (s : string) : string := rev_onto s EmptyString.

(** [s.endswith(p)] *)
Definition endswith (s p : string) : bool :=
  startswith (reversed s) (reversed p).

Definition is_lower (c : ascii) : bool :=
  ((97 <=? nat_of_ascii c) && (nat_of_ascii c <=? 122))%nat.

Definition is_upper (c : ascii) : bool :=
  ((65 <=? nat_of_ascii c) && (nat_of_ascii c <=? 90))%nat.

Definition toupper (c : ascii) : ascii :=
  if is_lower c then ascii_of_nat (nat_of_ascii c - 32) else c.

Definition tolower (c : ascii) : ascii :=
  if is_upper c then ascii_of_nat (nat_of_ascii c + 32) else c.

Fixpoint lower (s : string) : string :=
  match s with
  | EmptyString => EmptyString
  | String c r => String (tolower c) (lower r)
  end.

(** [s.capitalize()]: first character upper-cased, all the others
    lower-cased (ASCII letters, as for a byte string in the C locale). *)
Definition capitalize (s : string) : string :=
  match s with
  | EmptyString => EmptyString
  | String c r => String (toupper c) (lower r)
  end.

(** ["{0}".format(n)] for a non-negative integer. *)
Definition str_of_nat (n : nat) : string :=
  NilEmpty.string_of_uint (Nat.to_uint n).

(** [a <= b] on strings. *)
Definition str_le (a b : string) : Prop := String.leb a b = true.

(** [a <= b] on pairs of strings: the first components decide unless
    they are equal. *)
Definition tuple_le (a b : string * string) : Prop :=
  match String.compare (fst a) (fst b) with
  | Lt => True
  | Eq => str_le (snd a) (snd b)
  | Gt => False
  end.

(** [os.path.join(a, b)] of [posixpath]. *)
Definition os_path_join (a b : string) : string :=
  if startswith b "/" then b
  else if negb (truthy a) || endswith a "/" then a ++ b
  else a ++ "/" ++ b.

(** [s.split("/")] *)
Fixpoint split_slash_from (s current : string) : list string :=
  match s with
  | EmptyString => [current]
  | String c r =>
      if Ascii.eqb c "/" then current :: split_slash_from r EmptyString
      else split_slash_from r (current ++ String c EmptyString)
  end.

Definition split_slash (s : string) : list string :=
  split_slash_from s EmptyString.

(** The loop of [normpath] over the components; [new_comps] is kept
    with its last element first. *)
Fixpoint normpath_comps (initial_slashes : bool) (comps new_comps : list string)
  : list string :=
  match comps with
  | [] => List.rev new_comps
  | comp :: rest =>
      if String.eqb comp EmptyString || String.eqb comp "." then
        normpath_comps initial_slashes rest new_comps
      else if negb (String.eqb comp "..")
              || (negb initial_slashes
                  && match new_comps with [] => true | _ => false end)
              || match new_comps with
                 | last :: _ => String.eqb last ".."
                 | [] => false
                 end
      then normpath_comps initial_slashes rest (comp :: new_comps)
      else normpath_comps initial_slashes rest (List.tl new_comps)
  end.

(** [os.path.normpath] of [posixpath]. *)
Definition os_path_normpath (path : string) : string :=
  if negb (truthy path) then "."
  else
    let initial_slashes :=
      if startswith path "/" then
        if startswith path "//" && negb (startswith path "///") then 2 else 1
      else 0 in
    let comps :=
      normpath_comps (negb (Nat.eqb initial_slashes 0))
                     (split_slash path) [] in
    let joined := String.concat "/" comps in
    let path :=
      match initial_slashes with
      | 0 => joined
      | 1 => "/" ++ joined
      | _ => "//" ++ joined
      end in
    if truthy path then path else ".".

(** [os.path.split(p)[1]]: what follows the last slash. *)
Definition os_path_split_1 (p : string) : string :=
  List.last (split_slash p) EmptyString.

End Py.

#[global] Instance tuple_le_dec (a b : string * string)
  : Decision (Py.tuple_le a b).
Proof.
  unfold Py.tuple_le, Py.str_le.
  destruct (String.compare a.1 b.1); [ solve_decision | left | right ]; auto.
Defined.

(** ** [shlex.split]

    The POSIX-mode tokenizer of the standard library with its default
    character classes and [whitespace_split] on, as [shlex.split(s)]
    runs it: blanks separate words, single and double quotes group,
    a backslash escapes.  [None] stands for the [ValueError] of an
    unterminated quotation or escape. *)

Module Shlex.

Inductive state : Type :=
| InWhite                          (* state ' ' *)
| InWord                           (* state 'a' *)
| InQuote (q : ascii)              (* state is the opening quote *)
| InEscape (back : option ascii).  (* state '\\'; [back] is escapedstate:
                                      [None] for 'a', [Some q] for a quote *)

Definition backslash : ascii := "092"%char.
Definition dquote : ascii := "034"%char.
Definition squote : ascii := "039"%char.

Definition is_whitespace (c : ascii) : bool :=
  Ascii.eqb c " " || Ascii.eqb c "009" || Ascii.eqb c "013" || Ascii.eqb c "010".

Definition is_quote (c : ascii) : bool :=
  Ascii.eqb c squote || Ascii.eqb c dquote.

Definition push (token : string) (c : ascii) : string :=
  token ++ String c EmptyString.

(** A finished token is kept when it is non-empty or was quoted. *)
Definition emit (token : string) (quoted : bool) (rest : list string)
  : list string :=
  if Py.truthy token || quoted then token :: rest else rest.

Fixpoint read (input : string) (st : state) (token : string)
         (quoted : bool) : option (list string) :=
  match input with
  | EmptyString =>
      match st with
      | InWhite | InWord => Some (emit token quoted [])
      | InQuote _ => None          (* No closing quotation *)
      | InEscape _ => None         (* No escaped character *)
      end
  | String c rest =>
      match st with
      | InWhite =>
          if is_whitespace c then
            if Py.truthy token || quoted
            then option_map (emit token quoted)
                            (read rest InWhite EmptyString false)
            else read rest InWhite token quoted
          else if Ascii.eqb c backslash then
            read rest (InEscape None) token quoted
          else if is_quote c then read rest (InQuote c) token quoted
          else read rest InWord (String c EmptyString) quoted
      | InQuote q =>
          if Ascii.eqb c q then read rest InWord token true
          else if Ascii.eqb c backslash && Ascii.eqb q dquote then
            read rest (InEscape (Some q)) token true
          else read rest (InQuote q) (push token c) true
      | InEscape back =>
          let token :=
            match back with
            | Some q =>
                if negb (Ascii.eqb c backslash) && negb (Ascii.eqb c q)
                then push token backslash else token
            | None => token
            end in
          read rest
               (match back with Some q => InQuote q | None => InWord end)
               (push token c) quoted
      | InWord =>
          if is_whitespace c then
            if Py.truthy token || quoted
            then option_map (emit token quoted)
                            (read rest InWhite EmptyString false)
            else read rest InWhite token quoted
          else if is_quote c then read rest (InQuote c) token quoted
          else if Ascii.eqb c backslash then
            read rest (InEscape None) token quoted
          else read rest InWord (push token c) quoted
      end
  end.

Definition split (s : string) : option (list string) :=
  read s InWhite EmptyString false.

End Shlex.

(** ** The outside world *)

(** The exceptions that can cross the functions of the module. *)
Inductive exn : Type :=
| CalledProcessError   (* a child process exited with a non-zero status *)
| OSError              (* a system call failed *)
| ValueError           (* [shlex.split] on malformed input *)
| IndexError.          (* a child process asked for without a program *)

(** What [os.stat] (which follows symbolic links) finds at a path. *)
Inductive file_kind : Type :=
| Directory
| RegularFile
| OtherFile.

(** What the program does to its environment, in order. *)
Inductive event : Type :=
| Out (level : nat) (msg : string)          (* out(level, msg) *)
| Print (text : string)                     (* print(text) *)
| Chdir (path : string)                     (* os.chdir(path) *)
| Exec (dir : string) (argv : list string) (result : exn + string).
    (* a child process run in [dir], with what came back from it *)

Section Engine.

(** The state of everything outside the process. *)
Context {X : Type}.

(** The state the program runs in: the outside world and the
    process's current working directory. *)
Record World : Type := mkWorld { ext : X; cwd : string }.

(** The host: styling functions of [gitup.output] and the system
    calls.  A failed [os.stat] or [os.listdir] is [None];
    [host_chdir] tells whether [os.chdir] succeeds; [host_getcwd] is
    [os.getcwd], the name the system has for the working directory,
    or [None] when it fails (the directory is gone); a child
    process yields its combined standard output and standard error
    on exit status zero, and otherwise the exception that
    [subprocess.check_output] raises; it may change the outside
    world. *)
Record Host : Type := mkHost {
  bold : string -> string;
  red : string -> string;
  green : string -> string;
  blue : string -> string;
  host_stat : World -> string -> option file_kind;
  host_listdir : World -> string -> option (list string);
  host_chdir : World -> string -> bool;
  host_getcwd : World -> option string;
  host_run : World -> list string -> (exn + string) * X
}.

(** *** Computations: state, trace of events, exceptions *)

Inductive outcome (A : Type) : Type :=
| Returned (a : A)
| Raised (e : exn).
Global Arguments Returned {A} a.
Global Arguments Raised {A} e.

Definition M (A : Type) : Type := World -> outcome A * World * list event.

Definition ret {A} (a : A) : M A := fun w => (Returned a, w, []).

Definition raise {A} (e : exn) : M A := fun w => (Raised e, w, []).

Definition bind {A B} (m : M A) (k : A -> M B) : M B :=
  fun w =>
    match m w with
    | (Returned a, w1, t1) =>
        match k a w1 with
        | (o, w2, t2) => (o, w2, (t1 ++ t2)%list)
        end
    | (Raised e, w1, t1) => (Raised e, w1, t1)
    end.

(** [try: m  except E: ...]: [Some] the value of [m], or [None] when
    [m] raised [E]; any other exception goes on. *)
Definition try_except {A} (catches : exn -> bool) (m : M A)
  : M (option A) :=
  fun w =>
    match m w with
    | (Returned a, w1, t1) => (Returned (Some a), w1, t1)
    | (Raised e, w1, t1) =>
        if catches e then (Returned None, w1, t1) else (Raised e, w1, t1)
    end.

Definition is_CalledProcessError (e : exn) : bool :=
  match e with CalledProcessError => true | _ => false end.

Definition is_OSError (e : exn) : bool :=
  match e with OSError => true | _ => false end.

Definition emit (e : event) : M unit := fun w => (Returned tt, w, [e]).

(** [for x in xs: body(x)] *)
Fixpoint for_each {A} (xs : list A) (body : A -> M unit) : M unit :=
  match xs with
  | [] => ret tt
  | x :: rest => bind (body x) (fun _ => for_each rest body)
  end.

End Engine.

Arguments World X : clear implicits.
Arguments Host X : clear implicits.
Arguments M X A : clear implicits.

Notation "x <- m ;; k" := (bind m (fun x => k))
  (at level 100, m at next level, right associativity).
Notation "m ;; k" := (bind m (fun _ => k))
  (at level 100, right associativity).

(** ** The module [gitup.update] *)

Section Update.

Context {X : Type} (h : Host X).

(** *** Library calls *)

Definition out (level : nat) (msg : string) : M X unit :=
  emit (Out level msg).

Definition print (text : string) : M X unit := emit (Print text).

Definition shlex_split (s : string) : M X (list string) :=
  match Shlex.split s with
  | Some argv => ret argv
  | None => raise ValueError
  end.

(** [subprocess.check_output(argv, stderr=subprocess.STDOUT)]: with
    no program to run ([argv[0]] does not exist) it raises before any
    child process is made. *)
Definition subprocess_check_output (argv : list string) : M X string :=
  fun w =>
    match argv with
    | [] => (Raised IndexError, w, [])
    | _ :: _ =>
        let '(r, x) := host_run h w argv in
        let w' := mkWorld x (cwd w) in
        match r with
        | inr output => (Returned output, w', [Exec (cwd w) argv r])
        | inl e => (Raised e, w', [Exec (cwd w) argv r])
        end
    end.

(** [os.path.isdir] and [os.path.exists] answer [False] when
    [os.stat] fails. *)
Definition os_path_isdir (path : string) : M X bool :=
  fun w =>
    (Returned match host_stat h w path with
              | Some Directory => true
              | _ => false
              end, w, []).

Definition os_path_exists (path : string) : M X bool :=
  fun w =>
    (Returned match host_stat h w path with
              | Some _ => true
              | None => false
              end, w, []).

Definition os_listdir (path : string) : M X (list string) :=
  fun w =>
    match host_listdir h w path with
    | Some names => (Returned names, w, [])
    | None => (Raised OSError, w, [])
    end.

(** [os.chdir]: the new working directory is the path resolved
    against the old one. *)
Definition os_chdir (path : string) : M X unit :=
  fun w =>
    if host_chdir h w path
    then (Returned tt, mkWorld (ext w) (Py.os_path_join (cwd w) path),
          [Chdir path])
    else (Raised OSError, w, [Chdir path]).

(** *** [_exec_shell] *)

Definition _exec_shell (command : string) : M X string :=
  command <- shlex_split command ;;
  result <- subprocess_check_output command ;;
  let result :=
    if Py.truthy result
    then Py.slice_to_minus1 result  (* Strip newline if command returned anything *)
    else result in
  ret result.

(** *** [_directory_is_git_repo] *)

Definition _directory_is_git_repo (directory_path : string) : M X bool :=
  is_dir <- os_path_isdir directory_path ;;
  if is_dir then
    let git_subfolder := Py.os_path_join directory_path ".git" in
    has_git <- os_path_isdir git_subfolder ;;
    if has_git then ret true else ret false
  else ret false.

(** *** [_update_repository] *)

(** A string literal between double quotes. *)
Definition dq (s : string) : string :=
  String Shlex.dquote (s ++ String Shlex.dquote EmptyString).

Definition clean_marker : string :=
  "nothing to commit, working directory clean".

Definition _update_repository (repo_path repo_name : string) : M X unit :=
  out 1 (bold h repo_name ++ ":") ;;
  (* cd into our folder so git commands target the correct repo *)
  os_chdir repo_path ;;
  fetched <- try_except is_CalledProcessError
               (_exec_shell "git fetch --dry-run") ;;
  match fetched with
  | None =>
      out 2 (red h "Error: " ++
             "cannot fetch; do you have a remote repository configured correctly?")
  | Some dry_fetch =>
      logged <- try_except is_CalledProcessError
                  (_exec_shell ("git log -n 1 --pretty=" ++ dq "%ar")) ;;
      let last_commit :=
        match logged with
        | Some age => age
        | None => "never"   (* Couldn't get a log, so no commits *)
        end in
      if negb (Py.truthy dry_fetch) then   (* No new changes to pull *)
        out 2 (blue h "No new changes." ++
               " Last commit was " ++ last_commit ++ ".")
      else
        out 2 "There are new changes upstream..." ;;
        status <- _exec_shell "git status" ;;
        if Py.endswith status clean_marker then
          out 2 (green h "Pulling new changes...") ;;
          result <- _exec_shell "git pull" ;;
          out 2 ("The following changes have been made since " ++
                 last_commit ++ ":") ;;
          print result
        else
          out 2 (red h "Warning: " ++
                 "you have uncommitted changes in this repository!") ;;
          out 2 "Ignoring."
  end.

(** *** [_update_directory] *)

(** The loop that filters the entries of a directory down to the
    repositories among them, in the order of the listing. *)
Fixpoint collect_repositories (dir_path dir_name : string)
         (dir_contents : list string) : M X (list (string * string)) :=
  match dir_contents with
  | [] => ret []
  | item :: rest =>
      let repo_path := Py.os_path_join dir_path item in
      let repo_name := Py.os_path_join dir_name item in
      is_repo <- _directory_is_git_repo repo_path ;;
      repositories <- collect_repositories dir_path dir_name rest ;;
      ret (if is_repo then (repo_path, repo_name) :: repositories
           else repositories)
  end.

(** [l.sort()] on a list of pairs of strings. *)
Definition list_sort (l : list (string * string)) : list (string * string) :=
  merge_sort Py.tuple_le l.

Definition _update_directory (dir_path dir_name : string)
           (is_bookmark : bool) : M X unit :=
  let dir_type := if is_bookmark then "bookmark" else "directory" in
  let dir_long_name := (dir_type ++ " '" ++ bold h dir_path ++ "'")%string in
  (* Test if we can access this directory *)
  listed <- try_except is_OSError (os_listdir dir_path) ;;
  match listed with
  | None =>
      out 0 (red h "Error: " ++
             "cannot enter " ++ dir_long_name ++ "; does it exist?")
  | Some _ =>
      is_dir <- os_path_isdir dir_path ;;
      if negb is_dir then
        present <- os_path_exists dir_path ;;
        if present then
          out 0 (red h "Error: " ++ dir_long_name ++ " is not a directory!")
        else
          out 0 (red h "Error: " ++ dir_long_name ++ " does not exist!")
      else
        is_repo <- _directory_is_git_repo dir_path ;;
        if is_repo then
          out 0 (Py.capitalize dir_long_name ++ " is a git repository:") ;;
          _update_repository dir_path dir_name
        else
          dir_contents <- os_listdir dir_path ;;
          repositories <- collect_repositories dir_path dir_name
                            dir_contents ;;
          let num_of_repos := length repositories in
          (if Nat.eqb num_of_repos 1 then
             out 0 (Py.capitalize dir_long_name ++
                    " contains 1 git repository:")
           else
             out 0 (Py.capitalize dir_long_name ++
                    " contains " ++ Py.str_of_nat num_of_repos ++
                    " git repositories:")) ;;
          (* Go alphabetically instead of randomly *)
          for_each (list_sort repositories)
                   (fun '(repo_path, repo_name) =>
                      _update_repository repo_path repo_name)
  end.

(** *** [update_bookmarks] *)

Definition guidance : string :=
  "You don't have any bookmarks configured! Get help with 'gitup -h'.".

Definition update_bookmarks (bookmarks : list (string * string))
  : M X unit :=
  match bookmarks with
  | _ :: _ =>
      for_each bookmarks
               (fun '(bookmark_path, bookmark_name) =>
                  _update_directory bookmark_path bookmark_name true)
  | [] => out 0 guidance
  end.

(** *** [update_directories] *)

Definition os_getcwd : M X string :=
  fun w =>
    match host_getcwd h w with
    | Some name => (Returned name, w, [])
    | None => (Raised OSError, w, [])
    end.

(** [os.path.abspath] of [posixpath]: the working directory is asked
    for only when the path is relative. *)
Definition os_path_abspath (path : string) : M X string :=
  if negb (Py.startswith path "/") then
    cwd <- os_getcwd ;;
    ret (Py.os_path_normpath (Py.os_path_join cwd path))
  else ret (Py.os_path_normpath path).

Definition update_directories (paths : list string) : M X unit :=
  for_each paths
           (fun path =>
              (* Convert relative to absolute path *)
              path <- os_path_abspath path ;;
              (* Dir name ("x" in /path/to/x/) *)
              let path_name := Py.os_path_split_1 path in
              _update_directory path path_name false).

End Update.

(** ** Vocabulary of the specification *)

Section Vocabulary.

Context {X : Type} (h : Host X).

(** The text [_exec_shell] hands back for the raw output of a
    command. *)
Definition text_of (raw : string) : string :=
  if Py.truthy raw then Py.slice_to_minus1 raw else raw.

(** [path] is an existing directory that contains a directory
    [.git]. *)
Definition is_git_repo_at (w : World X) (path : string) : bool :=
  match host_stat h w path with
  | Some Directory =>
      match host_stat h w (Py.os_path_join path ".git") with
      | Some Directory => true
      | _ => false
      end
  | _ => false
  end.

(** Something can be found at [path]. *)
Definition exists_at (w : World X) (path : string) : Prop :=
  host_stat h w path <> None.

(** There is a directory [.git] under [path]. *)
Definition has_git_subdirectory (w : World X) (path : string) : Prop :=
  host_stat h w (Py.os_path_join path ".git") = Some Directory.

(** The repository references found among the entries [names] of a
    container, in the order of the listing. *)
Definition repositories_of (w : World X) (dir_path dir_name : string)
           (names : list string) : list (string * string) :=
  List.map (fun item => (Py.os_path_join dir_path item,
                         Py.os_path_join dir_name item))
           (List.filter
              (fun item => is_git_repo_at w (Py.os_path_join dir_path item))
              names).

(** How the Resolver names the directory it was given. *)
Definition dir_long_name (is_bookmark : bool) (dir_path : string)
  : string :=
  (if is_bookmark then "bookmark" else "directory") ++
  " '" ++ bold h dir_path ++ "'".

Definition cannot_enter_error (is_bookmark : bool) (dir_path : string)
  : string :=
  red h "Error: " ++
  "cannot enter " ++ dir_long_name is_bookmark dir_path ++ "; does it exist?".

Definition not_a_directory_error (is_bookmark : bool) (dir_path : string)
  : string :=
  red h "Error: " ++ dir_long_name is_bookmark dir_path ++
  " is not a directory!".

Definition does_not_exist_error (is_bookmark : bool) (dir_path : string)
  : string :=
  red h "Error: " ++ dir_long_name is_bookmark dir_path ++
  " does not exist!".

Definition repository_report (is_bookmark : bool) (dir_path : string)
  : string :=
  Py.capitalize (dir_long_name is_bookmark dir_path) ++
  " is a git repository:".

Definition singular_count : string := " contains 1 git repository:".

Definition plural_count (n : nat) : string :=
  " contains " ++ Py.str_of_nat n ++ " git repositories:".

(** A directory that can be listed, is a directory and is not itself
    a repository. *)
Definition is_container (w : World X) (dir_path : string)
           (names : list string) : Prop :=
  host_listdir h w dir_path = Some names
  /\ host_stat h w dir_path = Some Directory
  /\ is_git_repo_at w dir_path = false.

(** The loop of the Resolver over the repositories of a container. *)
Definition update_each (repositories : list (string * string)) : M X unit :=
  for_each repositories
           (fun '(repo_path, repo_name) =>
              _update_repository h repo_path repo_name).

(** The Resolver is run on the bookmarks one after the other, as
    bookmarks, each in the world the one before left; the first one
    that raises ends the run. *)
Inductive resolved_in_order
  : list (string * string) -> World X ->
    outcome unit * World X * list event -> Prop :=
| resolved_none w :
    resolved_in_order [] w (Returned tt, w, [])
| resolved_next path name rest w w1 t1 o w2 t2 :
    _update_directory h path name true w = (Returned tt, w1, t1) ->
    resolved_in_order rest w1 (o, w2, t2) ->
    resolved_in_order ((path, name) :: rest) w (o, w2, (t1 ++ t2)%list)
| resolved_stop path name rest w e w1 t1 :
    _update_directory h path name true w = (Raised e, w1, t1) ->
    resolved_in_order ((path, name) :: rest) w (Raised e, w1, t1).

(** The same host with another enumeration of directories. *)
Definition with_listdir
           (listing : World X -> string -> option (list string)) : Host X :=
  {| bold := bold h; red := red h; green := green h; blue := blue h;
     host_stat := host_stat h; host_listdir := listing;
     host_chdir := host_chdir h; host_getcwd := host_getcwd h;
     host_run := host_run h |}.

(** The same host once the working directory has been removed:
    [os.getcwd] fails. *)
Definition without_cwd : Host X :=
  {| bold := bold h; red := red h; green := green h; blue := blue h;
     host_stat := host_stat h; host_listdir := host_listdir h;
     host_chdir := host_chdir h; host_getcwd := fun _ => None;
     host_run := host_run h |}.

End Vocabulary.

(** *** What one update of a repository can look like

    The outcomes of the Repository Updater, each with the exact trace
    it leaves: [hdr] is the header line, [path] the repository as it
    was passed in, [dir] the directory the commands run in. *)

Section Outcomes.

Context {X : Type} (h : Host X).

Definition fetch_argv : list string := ["git"; "fetch"; "--dry-run"].
Definition log_argv : list string :=
  ["git"; "log"; "-n"; "1"; "--pretty=%ar"].
Definition status_argv : list string := ["git"; "status"].
Definition pull_argv : list string := ["git"; "pull"].

Definition fetch_error_report : string :=
  red h "Error: " ++
  "cannot fetch; do you have a remote repository configured correctly?".

Definition no_changes_report (age : string) : string :=
  blue h "No new changes." ++ " Last commit was " ++ age ++ ".".

Definition upstream_notice : string := "There are new changes upstream...".

Definition pulling_report : string := green h "Pulling new changes...".

Definition changes_report (age : string) : string :=
  "The following changes have been made since " ++ age ++ ":".

Definition uncommitted_warning : string :=
  red h "Warning: " ++ "you have uncommitted changes in this repository!".

Definition skip_note : string := "Ignoring.".

(** The age of the last commit that the reports show, given what
    [git log] came back with: its text, or the sentinel when it
    exited with a non-zero status. *)
Definition age_of (result : exn + string) : option string :=
  match result with
  | inr raw => Some (text_of raw)
  | inl CalledProcessError => Some "never"
  | inl _ => None
  end.

Inductive update_shape (hdr path dir : string)
  : outcome unit -> list event -> Prop :=
| NoEntry :
    update_shape hdr path dir (Raised OSError) [Out 1 hdr; Chdir path]
| FetchError :
    update_shape hdr path dir (Returned tt)
      [Out 1 hdr; Chdir path;
       Exec dir fetch_argv (inl CalledProcessError);
       Out 2 fetch_error_report]
| FetchCrash e :
    e <> CalledProcessError ->
    update_shape hdr path dir (Raised e)
      [Out 1 hdr; Chdir path; Exec dir fetch_argv (inl e)]
| LogCrash fetched e :
    e <> CalledProcessError ->
    update_shape hdr path dir (Raised e)
      [Out 1 hdr; Chdir path; Exec dir fetch_argv (inr fetched);
       Exec dir log_argv (inl e)]
| NoChanges fetched logged age :
    text_of fetched = EmptyString ->
    age_of logged = Some age ->
    update_shape hdr path dir (Returned tt)
      [Out 1 hdr; Chdir path; Exec dir fetch_argv (inr fetched);
       Exec dir log_argv logged; Out 2 (no_changes_report age)]
| StatusCrash fetched logged age e :
    text_of fetched <> EmptyString ->
    age_of logged = Some age ->
    update_shape hdr path dir (Raised e)
      [Out 1 hdr; Chdir path; Exec dir fetch_argv (inr fetched);
       Exec dir log_argv logged; Out 2 upstream_notice;
       Exec dir status_argv (inl e)]
| Uncommitted fetched logged age status :
    text_of fetched <> EmptyString ->
    age_of logged = Some age ->
    Py.endswith (text_of status) clean_marker = false ->
    update_shape hdr path dir (Returned tt)
      [Out 1 hdr; Chdir path; Exec dir fetch_argv (inr fetched);
       Exec dir log_argv logged; Out 2 upstream_notice;
       Exec dir status_argv (inr status);
       Out 2 uncommitted_warning; Out 2 skip_note]
| PullCrash fetched logged age status e :
    text_of fetched <> EmptyString ->
    age_of logged = Some age ->
    Py.endswith (text_of status) clean_marker = true ->
    update_shape hdr path dir (Raised e)
      [Out 1 hdr; Chdir path; Exec dir fetch_argv (inr fetched);
       Exec dir log_argv logged; Out 2 upstream_notice;
       Exec dir status_argv (inr status); Out 2 pulling_report;
       Exec dir pull_argv (inl e)]
| Pulled fetched logged age status pulled :
    text_of fetched <> EmptyString ->
    age_of logged = Some age ->
    Py.endswith (text_of status) clean_marker = true ->
    update_shape hdr path dir (Returned tt)
      [Out 1 hdr; Chdir path; Exec dir fetch_argv (inr fetched);
       Exec dir log_argv logged; Out 2 upstream_notice;
       Exec dir status_argv (inr status); Out 2 pulling_report;
       Exec dir pull_argv (inr pulled);
       Out 2 (changes_report age); Print (text_of pulled)].

End Outcomes.

(** The paths the Updater was started on, in order: each run of it
    changes directory exactly once, as its first action. *)
Fixpoint updated_paths (t : list event) : list string :=
  match t with
  | [] => []
  | Chdir path :: rest => path :: updated_paths rest
  | _ :: rest => updated_paths rest
  end.

(** The top-level report lines of a trace. *)
Fixpoint level0_lines (t : list event) : list string :=
  match t with
  | [] => []
  | Out 0 msg :: rest => msg :: level0_lines rest
  | _ :: rest => level0_lines rest
  end.


(** The commands of a trace, in the order they were run. *)
Fixpoint commands (t : list event) : list (list string) :=
  match t with
  | [] => []
  | Exec _ argv _ :: rest => argv :: commands rest
  | _ :: rest => commands rest
  end.

(** The levels of the report lines of a trace, in order. *)
Fixpoint out_levels (t : list event) : list nat :=
  match t with
  | [] => []
  | Out level _ :: rest => level :: out_levels rest
  | _ :: rest => out_levels rest
  end.

(** The header lines of a trace (level 1), in order. *)
Fixpoint level1_lines (t : list event) : list string :=
  match t with
  | [] => []
  | Out 1 msg :: rest => msg :: level1_lines rest
  | _ :: rest => level1_lines rest
  end.

(** The system calls whose failure nothing in the module catches: an
    [os.chdir] that fails, a child process that cannot be run at all,
    and a [git status] or [git pull] that exits with a non-zero
    status. *)
Definition uncaught_failure (e : exn) (x : event) : Prop :=
  (exists path, x = Chdir path /\ e = OSError)
  \/ (exists dir argv,
        x = Exec dir argv (inl e)
        /\ (e = CalledProcessError ->
            argv = status_argv \/ argv = pull_argv)).


(** A run that raised did so in its last event, an uncaught failure. *)
Definition stopped_by_uncaught_failure {X : Type}
           (run : outcome unit * World X * list event) : Prop :=
  forall e,
    run.1.1 = Raised e ->
    exists before x,
      run.2 = (before ++ [x])%list /\ uncaught_failure e x.

(** ** A small concrete host for examples

    A disk is a table from absolute paths to nodes; [git] is scripted
    by a function of the working directory and the arguments; styling
    leaves the text as it is. *)

Module Demo.

Inductive node : Type :=
| File
| Dir (entries : list string).

Definition disk : Type := list (string * node).

Fixpoint lookup (d : disk) (path : string) : option node :=
  match d with
  | [] => None
  | (p, n) :: rest => if String.eqb p path then Some n else lookup rest path
  end.

Definition script : Type := string -> list string -> exn + string.

Definition host (d : disk) (git : script) : Host unit :=
  {| bold := fun s => s; red := fun s => s;
     green := fun s => s; blue := fun s => s;
     host_stat := fun w path =>
       match lookup d (Py.os_path_join (cwd w) path) with
       | Some File => Some RegularFile
       | Some (Dir _) => Some Directory
       | None => None
       end;
     host_listdir := fun w path =>
       match lookup d (Py.os_path_join (cwd w) path) with
       | Some (Dir entries) => Some entries
       | _ => None
       end;
     host_chdir := fun w path =>
       match lookup d (Py.os_path_join (cwd w) path) with
       | Some (Dir _) => true
       | _ => false
       end;
     host_getcwd := fun w => Some (cwd w);
     host_run := fun w argv => (git (cwd w) argv, tt) |}.

Definition start : World unit := mkWorld tt "/home/me".

Definition newline : string := String "010" EmptyString.

(** A container [/srv] listing its children as b, a, c.  All three
    are repositories; there is also a plain file and a checkout whose
    [.git] is a file. *)
Definition srv : disk :=
  [ ("/srv", Dir ["b"; "notes.txt"; "a"; "wt"; "c"]);
    ("/srv/a", Dir [".git"]); ("/srv/a/.git", Dir []);
    ("/srv/b", Dir [".git"]); ("/srv/b/.git", Dir []);
    ("/srv/c", Dir [".git"]); ("/srv/c/.git", Dir []);
    ("/srv/wt", Dir [".git"]); ("/srv/wt/.git", File);
    ("/srv/notes.txt", File) ].

Definition is_argv (argv expected : list string) : bool :=
  if List.list_eq_dec String.string_dec argv expected then true else false.

(** [git] scripted by what its four commands come back with. *)
Definition git (fetch log status pull : exn + string) : script :=
  fun dir argv =>
    if is_argv argv fetch_argv then fetch
    else if is_argv argv log_argv then log
    else if is_argv argv status_argv then status
    else if is_argv argv pull_argv then pull
    else inl CalledProcessError.

(** Nothing upstream anywhere. *)
Definition quiet : script :=
  git (inr EmptyString) (inr ("2 days ago" ++ newline))
      (inr (clean_marker ++ newline)) (inr ("Already up-to-date." ++ newline)).

(** New changes upstream and a dirty tree. *)
Definition dirty : script :=
  git (inr ("From origin" ++ newline)) (inr ("3 hours ago" ++ newline))
      (inr ("Changes not staged for commit:" ++ newline))
      (inr ("Already up-to-date." ++ newline)).

(** New changes upstream and [git status] exits with an error. *)
Definition status_fails : script :=
  git (inr ("From origin" ++ newline)) (inr ("3 hours ago" ++ newline))
      (inl CalledProcessError)
      (inr ("Already up-to-date." ++ newline)).

(** New changes upstream, a clean tree, and [git pull] exits with an
    error. *)
Definition pull_fails : script :=
  git (inr ("From origin" ++ newline)) (inr ("3 hours ago" ++ newline))
      (inr ("On branch master" ++ newline ++ clean_marker ++ newline))
      (inl CalledProcessError).

(** New changes upstream, a clean tree, and a pull that goes through. *)
Definition behind : script :=
  git (inr ("From origin" ++ newline)) (inr ("3 hours ago" ++ newline))
      (inr ("On branch master" ++ newline ++ clean_marker ++ newline))
      (inr ("Fast-forward" ++ newline)).

(** No remote: the dry-run fetch exits with an error. *)
Definition no_remote : script :=
  git (inl CalledProcessError) (inr ("3 hours ago" ++ newline))
      (inr (clean_marker ++ newline)) (inl CalledProcessError).

(** A command whose output does not end in a newline. *)
Definition printf : script :=
  fun dir argv =>
    if is_argv argv ["printf"; "abc"] then inr "abc" else inr EmptyString.

End Demo.

(** * Properties *)

(** ** Strings *)

Section StringFacts.

Lemma append_empty_r (s : string) : s ++ EmptyString = s.
Proof. induction s as [|c s IH]; simpl; [reflexivity | now rewrite IH]. Qed.

Lemma append_assoc (a b c : string) : (a ++ b) ++ c = a ++ (b ++ c).
Proof. induction a as [|x a IH]; simpl; [reflexivity | now rewrite IH]. Qed.

Lemma length_append (a b : string) :
  String.length (a ++ b) = String.length a + String.length b.
Proof. induction a as [|x a IH]; simpl; [reflexivity | now rewrite IH]. Qed.

Lemma append_inv_head (a b c : string) : a ++ b = a ++ c -> b = c.
Proof.
  induction a as [|x a IH]; simpl; intros E; [assumption|].
  injection E as E. now apply IH.
Qed.

Lemma rev_onto_spec (s acc : string) :
  Py.rev_onto s acc = Py.reversed s ++ acc.
Proof.
  unfold Py.reversed. revert acc.
  induction s as [|c s IH]; intros acc; simpl; [reflexivity|].
  rewrite IH, (IH (String c EmptyString)), append_assoc. reflexivity.
Qed.

Lemma reversed_cons (c : ascii) (s : string) :
  Py.reversed (String c s) = Py.reversed s ++ String c EmptyString.
Proof. unfold Py.reversed at 1. simpl. apply rev_onto_spec. Qed.

Lemma reversed_append (a b : string) :
  Py.reversed (a ++ b) = Py.reversed b ++ Py.reversed a.
Proof.
  induction a as [|c a IH]; simpl.
  - now rewrite append_empty_r.
  - now rewrite !reversed_cons, IH, append_assoc.
Qed.

Lemma reversed_involutive (s : string) : Py.reversed (Py.reversed s) = s.
Proof.
  induction s as [|c s IH]; [reflexivity|].
  rewrite reversed_cons, reversed_append, IH. reflexivity.
Qed.

Lemma startswith_spec (s p : string) :
  Py.startswith s p = true <-> exists r, s = p ++ r.
Proof.
  revert s. induction p as [|a p IH]; intros s; simpl.
  - split; [intros _; now exists s | intros _; now destruct s].
  - destruct s as [|b s].
    + split; [discriminate | intros [r E]; discriminate].
    + simpl. rewrite andb_true_iff, Ascii.eqb_eq, IH. split.
      * intros [-> [r ->]]. now exists r.
      * intros [r E]. injection E as -> ->. split; [reflexivity | now exists r].
Qed.

Lemma endswith_spec (s p : string) :
  Py.endswith s p = true <-> exists pre, s = pre ++ p.
Proof.
  unfold Py.endswith. rewrite startswith_spec. split.
  - intros [r E]. exists (Py.reversed r).
    rewrite <- (reversed_involutive s), E, reversed_append.
    now rewrite reversed_involutive.
  - intros [pre ->]. exists (Py.reversed pre). apply reversed_append.
Qed.

Lemma slice_to_minus1_snoc (s : string) (c : ascii) :
  Py.slice_to_minus1 (s ++ String c EmptyString) = s.
Proof.
  induction s as [|x s IH]; [reflexivity|].
  simpl. rewrite IH. destruct s; reflexivity.
Qed.

Lemma truthy_snoc (s : string) (c : ascii) :
  Py.truthy (s ++ String c EmptyString) = true.
Proof. destruct s; reflexivity. Qed.

(** Output that ends in a newline comes back without it. *)
Lemma text_of_line (s : string) : text_of (s ++ Demo.newline) = s.
Proof.
  unfold text_of, Demo.newline.
  now rewrite truthy_snoc, slice_to_minus1_snoc.
Qed.

(** Any other non-empty output loses its last character all the same. *)
Lemma text_of_snoc (s : string) (c : ascii) :
  text_of (s ++ String c EmptyString) = s.
Proof. unfold text_of. now rewrite truthy_snoc, slice_to_minus1_snoc. Qed.

Lemma text_of_empty : text_of EmptyString = EmptyString.
Proof. reflexivity. Qed.

Lemma str_of_nat_nonempty (n : nat) : 1 <= String.length (Py.str_of_nat n).
Proof.
  unfold Py.str_of_nat.
  destruct (Nat.to_uint n) eqn:E; simpl; try lia.
  exfalso. pose proof (DecimalNat.Unsigned.of_to n) as R.
  rewrite E in R. simpl in R. subst n. discriminate E.
Qed.

End StringFacts.

(** ** Running the library calls *)

Section Runs.

Context {X : Type} (h : Host X).

Lemma bind_returned {A B} (m : M X A) (k : A -> M X B) w a w1 t1 o w2 t2 :
  m w = (Returned a, w1, t1) ->
  k a w1 = (o, w2, t2) ->
  bind m k w = (o, w2, (t1 ++ t2)%list).
Proof. intros Hm Hk. unfold bind. now rewrite Hm, Hk. Qed.

Lemma bind_raised {A B} (m : M X A) (k : A -> M X B) w e w1 t1 :
  m w = (Raised e, w1, t1) ->
  bind m k w = (Raised e, w1, t1).
Proof. intros Hm. unfold bind. now rewrite Hm. Qed.

Lemma try_returned {A} (c : exn -> bool) (m : M X A) w a w1 t1 :
  m w = (Returned a, w1, t1) ->
  try_except c m w = (Returned (Some a), w1, t1).
Proof. intros Hm. unfold try_except. now rewrite Hm. Qed.

Lemma try_caught {A} (c : exn -> bool) (m : M X A) w e w1 t1 :
  m w = (Raised e, w1, t1) -> c e = true ->
  try_except c m w = (Returned None, w1, t1).
Proof. intros Hm Hc. unfold try_except. now rewrite Hm, Hc. Qed.

Lemma try_passed {A} (c : exn -> bool) (m : M X A) w e w1 t1 :
  m w = (Raised e, w1, t1) -> c e = false ->
  try_except c m w = (Raised e, w1, t1).
Proof. intros Hm Hc. unfold try_except. now rewrite Hm, Hc. Qed.

Lemma split_fetch :
  Shlex.split "git fetch --dry-run" = Some ["git"; "fetch"; "--dry-run"].
Proof. reflexivity. Qed.

Lemma split_log :
  Shlex.split ("git log -n 1 --pretty=" ++ dq "%ar")
  = Some ["git"; "log"; "-n"; "1"; "--pretty=%ar"].
Proof. reflexivity. Qed.

Lemma split_status : Shlex.split "git status" = Some ["git"; "status"].
Proof. reflexivity. Qed.

Lemma split_pull : Shlex.split "git pull" = Some ["git"; "pull"].
Proof. reflexivity. Qed.

(** One call of [_exec_shell] is one child process, run in the
    current directory; its exit status decides between a text and an
    exception. *)
Lemma exec_shell_run (command program : string) (args : list string)
      (w : World X) :
  Shlex.split command = Some (program :: args) ->
  _exec_shell h command w =
    (match (host_run h w (program :: args)).1 with
     | inr raw => Returned (text_of raw)
     | inl e => Raised e
     end,
     mkWorld (host_run h w (program :: args)).2 (cwd w),
     [Exec (cwd w) (program :: args) (host_run h w (program :: args)).1]).
Proof.
  intros E. unfold _exec_shell, bind, shlex_split. rewrite E.
  unfold ret, subprocess_check_output.
  destruct (host_run h w (program :: args)) as [[e|raw] x]; reflexivity.
Qed.

Lemma exec_shell_returned command program args w raw x :
  Shlex.split command = Some (program :: args) ->
  host_run h w (program :: args) = (inr raw, x) ->
  _exec_shell h command w =
    (Returned (text_of raw), mkWorld x (cwd w),
     [Exec (cwd w) (program :: args) (inr raw)]).
Proof. intros E R. now rewrite (exec_shell_run _ _ _ _ E), R. Qed.

Lemma exec_shell_raised command program args w e x :
  Shlex.split command = Some (program :: args) ->
  host_run h w (program :: args) = (inl e, x) ->
  _exec_shell h command w =
    (Raised e, mkWorld x (cwd w), [Exec (cwd w) (program :: args) (inl e)]).
Proof. intros E R. now rewrite (exec_shell_run _ _ _ _ E), R. Qed.

Lemma exec_shell_blank (command : string) (w : World X) :
  Shlex.split command = Some [] ->
  _exec_shell h command w = (Raised IndexError, w, []).
Proof.
  intros E. unfold _exec_shell, bind, shlex_split. now rewrite E.
Qed.

Lemma exec_shell_malformed (command : string) (w : World X) :
  Shlex.split command = None ->
  _exec_shell h command w = (Raised ValueError, w, []).
Proof.
  intros E. unfold _exec_shell, bind, shlex_split. now rewrite E.
Qed.

(** A trailing newline is trimmed. *)
Lemma exec_shell_trims_newline command program args w line x :
  Shlex.split command = Some (program :: args) ->
  host_run h w (program :: args) = (inr (line ++ Demo.newline), x) ->
  _exec_shell h command w =
    (Returned line, mkWorld x (cwd w),
     [Exec (cwd w) (program :: args) (inr (line ++ Demo.newline))]).
Proof.
  intros E R. rewrite (exec_shell_run _ _ _ _ E), R. simpl.
  now rewrite text_of_line.
Qed.

(** A non-zero exit status is an exception that [try ... except
    subprocess.CalledProcessError] catches. *)
Lemma exec_shell_failure_is_catchable command program args w x :
  Shlex.split command = Some (program :: args) ->
  host_run h w (program :: args) = (inl CalledProcessError, x) ->
  _exec_shell h command w =
    (Raised CalledProcessError, mkWorld x (cwd w),
     [Exec (cwd w) (program :: args) (inl CalledProcessError)])
  /\ try_except is_CalledProcessError (_exec_shell h command) w =
    (Returned None, mkWorld x (cwd w),
     [Exec (cwd w) (program :: args) (inl CalledProcessError)]).
Proof.
  intros E R. unfold try_except.
  rewrite (exec_shell_run _ _ _ _ E), R. simpl. split; reflexivity.
Qed.

(** The Probe reads the file system twice at most and does nothing
    else. *)
Lemma directory_is_git_repo_run (path : string) (w : World X) :
  _directory_is_git_repo h path w = (Returned (is_git_repo_at h w path), w, []).
Proof.
  unfold _directory_is_git_repo, is_git_repo_at, bind, os_path_isdir, ret.
  destruct (host_stat h w path) as [[]|]; try reflexivity.
  destruct (host_stat h w (Py.os_path_join path ".git")) as [[]|];
    reflexivity.
Qed.

End Runs.

(** ** The Repository Probe *)

(** C3. For every path, the Probe answers false when nothing exists at
    the path, false when something exists there without a [.git]
    directory under it, and true otherwise; it always returns (never
    raises), changes nothing and emits nothing.  The file system is
    taken to be hierarchical at the path: what has a subdirectory is a
    directory. *)
Theorem C3_probe_classifies {X : Type} (h : Host X) (w : World X)
        (path : string) :
  (exists_at h w path -> has_git_subdirectory h w path ->
   host_stat h w path = Some Directory) ->
  exists answer : bool,
    _directory_is_git_repo h path w = (Returned answer, w, [])
    /\ (~ exists_at h w path -> answer = false)
    /\ (exists_at h w path -> ~ has_git_subdirectory h w path ->
        answer = false)
    /\ (exists_at h w path -> has_git_subdirectory h w path ->
        answer = true).
Proof.
  intros Hier. exists (is_git_repo_at h w path).
  split; [apply directory_is_git_repo_run|].
  unfold exists_at, has_git_subdirectory, is_git_repo_at in *.
  repeat split.
  - intros N. destruct (host_stat h w path) as [[]|]; try reflexivity.
    exfalso. apply N. discriminate.
  - intros _ N. destruct (host_stat h w path) as [[]|]; try reflexivity.
    destruct (host_stat h w (Py.os_path_join path ".git")) as [[]|];
      try reflexivity.
    now contradiction N.
  - intros E G. rewrite (Hier E G), G. reflexivity.
Qed.

Lemma C3_probe_classifies_witness :
  exists answer : bool,
    _directory_is_git_repo (Demo.host Demo.srv Demo.quiet) "/srv/a" Demo.start
    = (Returned answer, Demo.start, [])
    /\ answer = true.
Proof.
  destruct (C3_probe_classifies (Demo.host Demo.srv Demo.quiet)
              Demo.start "/srv/a") as [answer [R [_ [_ T]]]].
  - intros _ _. reflexivity.
  - exists answer. split; [exact R|].
    apply T; [discriminate | reflexivity].
Defined.

(** ** The Repository Updater *)

(** Splits a membership in an explicit list into its cases. *)
Ltac explode Hin :=
  simpl in Hin;
  repeat match type of Hin with
         | _ \/ _ => destruct Hin as [Hin|Hin]
         end.

Section UpdaterShape.

Context {X : Type} (h : Host X).

Lemma truthy_false_iff (s : string) : Py.truthy s = false <-> s = EmptyString.
Proof. destruct s; simpl; split; congruence. Qed.

Local Ltac enter Hcd :=
  eapply bind_returned; [reflexivity|];
  eapply bind_returned; [unfold os_chdir; rewrite Hcd; reflexivity|].

Local Ltac fetch_ok Hf :=
  eapply bind_returned;
  [ eapply try_returned;
    eapply exec_shell_returned; [reflexivity | exact Hf] |].

(** Every run of the Updater has one of the shapes of
    [update_shape]; the working directory ends up in the repository
    unless it could not be entered. *)
Lemma update_repository_shape (repo_path repo_name : string) (w : World X) :
  exists o w' t,
    _update_repository h repo_path repo_name w = (o, w', t)
    /\ update_shape h (bold h repo_name ++ ":") repo_path
                    (Py.os_path_join (cwd w) repo_path) o t
    /\ (if host_chdir h w repo_path
        then cwd w' = Py.os_path_join (cwd w) repo_path
        else cwd w' = cwd w /\ o = Raised OSError).
Proof.
  set (d := Py.os_path_join (cwd w) repo_path).
  unfold _update_repository.
  destruct (host_chdir h w repo_path) eqn:Hcd.
  2:{ do 3 eexists. split; [|split].
      - eapply bind_returned; [reflexivity|].
        eapply bind_raised. unfold os_chdir. rewrite Hcd. reflexivity.
      - apply NoEntry.
      - split; reflexivity. }
  destruct (host_run h (mkWorld (ext w) d) fetch_argv)
    as [[e|fetched] x2] eqn:Hf.
  { destruct (is_CalledProcessError e) eqn:He.
    - do 3 eexists. split; [|split].
      + enter Hcd.
        eapply bind_returned;
          [ eapply try_caught;
            [eapply exec_shell_raised; [reflexivity | exact Hf] | exact He]
          | reflexivity ].
      + destruct e; try discriminate He. apply FetchError.
      + reflexivity.
    - do 3 eexists. split; [|split].
      + enter Hcd.
        eapply bind_raised. eapply try_passed; [|exact He].
        eapply exec_shell_raised; [reflexivity | exact Hf].
      + apply FetchCrash. intros ->. discriminate He.
      + reflexivity. }
  destruct (host_run h (mkWorld x2 d) log_argv) as [logged x3] eqn:Hl.
  destruct (age_of logged) as [age|] eqn:Hage.
  2:{ destruct logged as [e|raw]; [|discriminate Hage].
      do 3 eexists. split; [|split].
      - enter Hcd. fetch_ok Hf.
        eapply bind_raised.
        eapply try_passed;
          [eapply exec_shell_raised; [reflexivity | exact Hl]|].
        destruct e; try reflexivity; discriminate Hage.
      - apply LogCrash. intros ->. discriminate Hage.
      - reflexivity. }
  assert (Hlog : exists lg,
             try_except is_CalledProcessError
               (_exec_shell h ("git log -n 1 --pretty=" ++ dq "%ar"))
               (mkWorld x2 d)
             = (Returned lg, mkWorld x3 d, [Exec d log_argv logged])
             /\ match lg with Some a => a | None => "never" end = age).
  { destruct logged as [e|raw].
    - exists None. destruct e; try discriminate Hage. split.
      + eapply try_caught;
          [eapply exec_shell_raised; [reflexivity | exact Hl] | reflexivity].
      + simpl in Hage. congruence.
    - exists (Some (text_of raw)). split.
      + eapply try_returned.
        eapply exec_shell_returned; [reflexivity | exact Hl].
      + simpl in Hage. congruence. }
  destruct Hlog as [lg [Hlog Hlast]].
  destruct (Py.truthy (text_of fetched)) eqn:Hempty.
  2:{ do 3 eexists. split; [|split].
      - enter Hcd. fetch_ok Hf.
        eapply bind_returned; [exact Hlog|].
        cbv beta. rewrite Hempty, Hlast. reflexivity.
      - eapply NoChanges; [|exact Hage].
        now apply truthy_false_iff.
      - reflexivity. }
  assert (Hne : text_of fetched <> EmptyString).
  { intros E. rewrite E in Hempty. discriminate. }
  destruct (host_run h (mkWorld x3 d) status_argv)
    as [[e|status] x4] eqn:Hs.
  { do 3 eexists. split; [|split].
    - enter Hcd. fetch_ok Hf.
      eapply bind_returned; [exact Hlog|].
      cbv beta. rewrite Hempty. cbn [negb].
      eapply bind_returned; [reflexivity|].
      eapply bind_raised.
      eapply exec_shell_raised; [reflexivity | exact Hs].
    - eapply StatusCrash; eassumption.
    - reflexivity. }
  destruct (Py.endswith (text_of status) clean_marker) eqn:Hclean.
  2:{ do 3 eexists. split; [|split].
      - enter Hcd. fetch_ok Hf.
        eapply bind_returned; [exact Hlog|].
        cbv beta. rewrite Hempty. cbn [negb].
        eapply bind_returned; [reflexivity|].
        eapply bind_returned;
          [eapply exec_shell_returned; [reflexivity | exact Hs]|].
        cbv beta. rewrite Hclean.
        eapply bind_returned; reflexivity.
      - eapply Uncommitted; eassumption.
      - reflexivity. }
  destruct (host_run h (mkWorld x4 d) pull_argv)
    as [[e|pulled] x5] eqn:Hp.
  - do 3 eexists. split; [|split].
    + enter Hcd. fetch_ok Hf.
      eapply bind_returned; [exact Hlog|].
      cbv beta. rewrite Hempty. cbn [negb].
      eapply bind_returned; [reflexivity|].
      eapply bind_returned;
        [eapply exec_shell_returned; [reflexivity | exact Hs]|].
      cbv beta. rewrite Hclean.
      eapply bind_returned; [reflexivity|].
      eapply bind_raised.
      eapply exec_shell_raised; [reflexivity | exact Hp].
    + eapply PullCrash; eassumption.
    + reflexivity.
  - do 3 eexists. split; [|split].
    + enter Hcd. fetch_ok Hf.
      eapply bind_returned; [exact Hlog|].
      cbv beta. rewrite Hempty. cbn [negb].
      eapply bind_returned; [reflexivity|].
      eapply bind_returned;
        [eapply exec_shell_returned; [reflexivity | exact Hs]|].
      cbv beta. rewrite Hclean.
      eapply bind_returned; [reflexivity|].
      eapply bind_returned;
        [eapply exec_shell_returned; [reflexivity | exact Hp]|].
      cbv beta. rewrite Hlast.
      eapply bind_returned; reflexivity.
    + eapply Pulled; eassumption.
    + reflexivity.
Qed.


(** What a trace of a given shape contains. *)
Lemma shape_inv hdr path dir o t :
  update_shape h hdr path dir o t ->
  exists rest,
    t = Out 1 hdr :: Chdir path :: rest
    /\ (forall q, ~ In (Chdir q) rest)
    /\ (forall m, ~ In (Out 0 m) rest)
    /\ (forall d a r, In (Exec d a r) rest -> d = dir).
Proof.
  intros S. inversion S; subst; eexists; (split; [reflexivity|]);
    (split; [|split]).
  all: try (intros q Hin; explode Hin; discriminate || contradiction).
  all: intros d0 a r Hin; explode Hin;
    try discriminate Hin; try contradiction;
    injection Hin as -> _ _; reflexivity.
Qed.

Lemma update_repository_cases repo_path repo_name w o w' t :
  _update_repository h repo_path repo_name w = (o, w', t) ->
  update_shape h (bold h repo_name ++ ":") repo_path
               (Py.os_path_join (cwd w) repo_path) o t
  /\ (if host_chdir h w repo_path
      then cwd w' = Py.os_path_join (cwd w) repo_path
      else cwd w' = cwd w /\ o = Raised OSError).
Proof.
  intros R.
  destruct (update_repository_shape repo_path repo_name w)
    as (o0 & w0 & t0 & R0 & S0 & C0).
  rewrite R in R0. injection R0 as <- <- <-. now split.
Qed.

End UpdaterShape.



(** A failing [git status] is not caught: the exception leaves the
    Updater.  The same holds for a failing [git pull]. *)
Lemma C2_status_and_pull_failures_propagate :
  _update_repository (Demo.host Demo.srv Demo.status_fails)
                     "/srv/a" "a" Demo.start
  = (Raised CalledProcessError, mkWorld tt "/srv/a",
     [Out 1 "a:"; Chdir "/srv/a";
      Exec "/srv/a" fetch_argv (inr ("From origin" ++ Demo.newline));
      Exec "/srv/a" log_argv (inr ("3 hours ago" ++ Demo.newline));
      Out 2 "There are new changes upstream...";
      Exec "/srv/a" status_argv (inl CalledProcessError)])
  /\ _update_repository (Demo.host Demo.srv Demo.pull_fails)
                        "/srv/a" "a" Demo.start
     = (Raised CalledProcessError, mkWorld tt "/srv/a",
        [Out 1 "a:"; Chdir "/srv/a";
         Exec "/srv/a" fetch_argv (inr ("From origin" ++ Demo.newline));
         Exec "/srv/a" log_argv (inr ("3 hours ago" ++ Demo.newline));
         Out 2 "There are new changes upstream...";
         Exec "/srv/a" status_argv
              (inr ("On branch master" ++ Demo.newline ++
                    clean_marker ++ Demo.newline));
         Out 2 "Pulling new changes...";
         Exec "/srv/a" pull_argv (inl CalledProcessError)]).
Proof. split; vm_compute; reflexivity. Qed.

(** C2, as the code has it.  A non-zero exit status is handled command
    by command.  A failing dry-run fetch is caught: the fetch-error
    report is emitted and the update of this repository ends normally.
    A failing read of the last commit's age is caught and replaced by
    the sentinel "never", and the update goes on: it then ends normally
    or with a failure of one of the two later commands, and the reports
    show "never" as the age.  A failing read of the status and a
    failing pull are not caught: the exception leaves the Updater. *)
Theorem C2_failures_command_by_command {X : Type} (h : Host X)
        (w : World X) (repo_path repo_name : string)
        (o : outcome unit) (w' : World X) (t : list event) :
  _update_repository h repo_path repo_name w = (o, w', t) ->
  (forall dir,
      In (Exec dir fetch_argv (inl CalledProcessError)) t ->
      o = Returned tt
      /\ t = [Out 1 (bold h repo_name ++ ":"); Chdir repo_path;
              Exec dir fetch_argv (inl CalledProcessError);
              Out 2 (fetch_error_report h)])
  /\ (forall dir,
         In (Exec dir log_argv (inl CalledProcessError)) t ->
         (o = Returned tt
          \/ exists e, o = Raised e
                       /\ (In (Exec dir status_argv (inl e)) t
                           \/ In (Exec dir pull_argv (inl e)) t))
         /\ (In (Out 2 (no_changes_report h "never")) t
             \/ In (Out 2 upstream_notice) t)
         /\ (forall pulled,
                In (Exec dir pull_argv (inr pulled)) t ->
                In (Out 2 (changes_report "never")) t))
  /\ (forall dir e, In (Exec dir status_argv (inl e)) t -> o = Raised e)
  /\ (forall dir e, In (Exec dir pull_argv (inl e)) t -> o = Raised e).
Proof.
  intros R. apply update_repository_cases in R as [S _].
  split; [|split; [|split]].
  - intros dir Hin.
    inversion S; subst; explode Hin; try discriminate Hin; try contradiction;
      try (injection Hin as <-; split; reflexivity);
      injection Hin as _ E; congruence.
  - intros dir Hin.
    inversion S; subst; explode Hin; try discriminate Hin; try contradiction.
    all: try (injection Hin as _ E; congruence).
    all: injection Hin as E1 E2; subst;
      match goal with
      | A : age_of (inl CalledProcessError) = Some _ |- _ =>
          simpl in A; injection A as <-
      end.
    + split; [now left|]. split; [left; simpl; tauto|].
      intros pulled Hp. explode Hp; discriminate || contradiction.
    + split; [right; eexists; split; [reflexivity|]; left; simpl; tauto|].
      split; [right; simpl; tauto|].
      intros pulled Hp. explode Hp; discriminate || contradiction.
    + split; [now left|]. split; [right; simpl; tauto|].
      intros pulled Hp. explode Hp; discriminate || contradiction.
    + split; [right; eexists; split; [reflexivity|]; right; simpl; tauto|].
      split; [right; simpl; tauto|].
      intros pulled Hp. explode Hp; discriminate || contradiction.
    + split; [now left|]. split; [right; simpl; tauto|].
      intros pulled' Hp. simpl. tauto.
  - intros dir e Hin.
    inversion S; subst; explode Hin; try discriminate Hin; try contradiction;
      injection Hin as _ E; congruence.
  - intros dir e Hin.
    inversion S; subst; explode Hin; try discriminate Hin; try contradiction;
      injection Hin as _ E; congruence.
Qed.

Lemma C2_failures_command_by_command_witness :
  In (Exec "/srv/a" status_argv (inl CalledProcessError))
     (_update_repository (Demo.host Demo.srv Demo.status_fails)
                         "/srv/a" "a" Demo.start).2
  /\ (_update_repository (Demo.host Demo.srv Demo.status_fails)
                         "/srv/a" "a" Demo.start).1.1
     = Raised CalledProcessError.
Proof.
  pose proof (C2_failures_command_by_command
                (Demo.host Demo.srv Demo.status_fails)
                Demo.start "/srv/a" "a") as T.
  destruct (_update_repository (Demo.host Demo.srv Demo.status_fails)
                               "/srv/a" "a" Demo.start)
    as [[o w'] t] eqn:R.
  specialize (T o w' t eq_refl).
  destruct T as [_ [_ [Hstatus _]]].
  assert (Hin : In (Exec "/srv/a" status_argv (inl CalledProcessError)) t)
    by (vm_compute in R; injection R as _ _ <-; simpl; tauto).
  split; [exact Hin | exact (Hstatus _ _ Hin)].
Defined.

(** C9. On every call of the Updater the working directory is set to
    the repository (the path it was given, resolved against the
    directory it was called in) before any command runs, and nothing
    sets it back: every command of the call runs there, and once the
    directory has been entered the call leaves the process there,
    whether it returns (the fetch-error return included) or a later
    command raises.  For an absolute path that directory is the path
    itself; for a relative one it depends on where the previous
    repository left the process. *)
Theorem C9_working_directory_is_left_in_the_repository {X : Type}
        (h : Host X) (w : World X) (repo_path repo_name : string)
        (o : outcome unit) (w' : World X) (t : list event) :
  _update_repository h repo_path repo_name w = (o, w', t) ->
  (exists hdr rest,
      t = Out 1 hdr :: Chdir repo_path :: rest
      /\ (forall q, ~ In (Chdir q) rest)
      /\ (forall dir argv result,
             In (Exec dir argv result) rest ->
             dir = Py.os_path_join (cwd w) repo_path))
  /\ (o = Returned tt -> cwd w' = Py.os_path_join (cwd w) repo_path)
  /\ (host_chdir h w repo_path = true ->
      cwd w' = Py.os_path_join (cwd w) repo_path)
  /\ (Py.startswith repo_path "/" = true ->
      Py.os_path_join (cwd w) repo_path = repo_path).
Proof.
  intros R. apply update_repository_cases in R as [S C].
  split; [|split; [|split]].
  - destruct (shape_inv h _ _ _ _ _ S) as (rest & E & Hcd & _ & Hex).
    exists (bold h repo_name ++ ":"), rest. auto.
  - intros ->. destruct (host_chdir h w repo_path); [exact C|].
    destruct C as [_ C]. discriminate C.
  - intros E. now rewrite E in C.
  - intros A. unfold Py.os_path_join. now rewrite A.
Qed.

Lemma C9_working_directory_is_left_in_the_repository_witness :
  cwd (_update_repository (Demo.host Demo.srv Demo.quiet)
                          "/srv/a" "a" Demo.start).1.2 = "/srv/a".
Proof.
  pose proof (C9_working_directory_is_left_in_the_repository
                (Demo.host Demo.srv Demo.quiet) Demo.start "/srv/a" "a")
    as T.
  destruct (_update_repository (Demo.host Demo.srv Demo.quiet)
                               "/srv/a" "a" Demo.start)
    as [[o w'] t] eqn:R.
  specialize (T o w' t eq_refl).
  destruct T as [_ [_ [Hin Habs]]].
  simpl. rewrite (Hin eq_refl). exact (Habs eq_refl).
Defined.

(** Two relative repositories in a row: the second is looked for
    inside the first. *)
Example relative_paths_follow_the_last_repository :
  let host := Demo.host Demo.srv Demo.quiet in
  let w0 := mkWorld tt "/srv" in
  let w1 := (_update_repository host "a" "a" w0).1.2 in
  cwd w1 = "/srv/a"
  /\ (_update_repository host "b" "b" w1).1.1 = Raised OSError
  /\ (_update_repository host "b" "b" w0).1.1 = Returned tt.
Proof. vm_compute. repeat split. Qed.

Example normpath_examples :
  Py.os_path_normpath "/a/b/../c" = "/a/c"
  /\ Py.os_path_normpath "a//b/./c/" = "a/b/c"
  /\ Py.os_path_normpath "../a" = "../a"
  /\ Py.os_path_normpath "/../a" = "/a"
  /\ Py.os_path_normpath "//a" = "//a"
  /\ Py.os_path_normpath "///a" = "/a"
  /\ Py.os_path_normpath EmptyString = "."
  /\ Py.os_path_split_1 "/path/to/x" = "x".
Proof. vm_compute. repeat split. Qed.

(** The same through [update_directories]: the second relative
    argument is made absolute only after the first repository has been
    entered, and is then looked for inside it. *)
Example relative_arguments_follow_the_last_repository :
  let host := Demo.host Demo.srv Demo.quiet in
  let w0 := mkWorld tt "/srv" in
  level0_lines (update_directories host ["a"; "b"] w0).2
  = ["Directory '/srv/a' is a git repository:";
     "Error: cannot enter directory '/srv/a/b'; does it exist?"]
  /\ level0_lines (update_directories host ["b"] w0).2
     = ["Directory '/srv/b' is a git repository:"].
Proof. vm_compute. repeat split. Qed.

(** ** The order of [sort] *)

Section Order.

Lemma ascii_compare_refl (a : ascii) : Ascii.compare a a = Eq.
Proof. apply N.compare_refl. Qed.

Lemma ascii_compare_lt_trans (a b c : ascii) :
  Ascii.compare a b = Lt -> Ascii.compare b c = Lt ->
  Ascii.compare a c = Lt.
Proof.
  unfold Ascii.compare. rewrite !N.compare_lt_iff. apply N.lt_trans.
Qed.

Lemma compare_refl (s : string) : String.compare s s = Eq.
Proof.
  induction s as [|c s IH]; simpl; [reflexivity|].
  now rewrite ascii_compare_refl.
Qed.

Lemma compare_lt_trans (a b c : string) :
  String.compare a b = Lt -> String.compare b c = Lt ->
  String.compare a c = Lt.
Proof.
  revert b c. induction a as [|x a IH]; intros [|y b] [|z c]; simpl;
    try congruence.
  destruct (Ascii.compare x y) eqn:Exy; try discriminate;
    destruct (Ascii.compare y z) eqn:Eyz; try discriminate; intros H1 H2.
  - apply Ascii.compare_eq_iff in Exy, Eyz. subst.
    rewrite ascii_compare_refl. eauto.
  - apply Ascii.compare_eq_iff in Exy. subst. now rewrite Eyz.
  - apply Ascii.compare_eq_iff in Eyz. subst. now rewrite Exy.
  - now rewrite (ascii_compare_lt_trans _ _ _ Exy Eyz).
Qed.

Lemma str_le_cases (a b : string) :
  Py.str_le a b <-> String.compare a b = Lt \/ a = b.
Proof.
  unfold Py.str_le, String.leb. split.
  - destruct (String.compare a b) eqn:E; try discriminate; intros _.
    + right. now apply String.compare_eq_iff.
    + now left.
  - intros [-> | ->]; [reflexivity|]. now rewrite compare_refl.
Qed.

Lemma str_le_trans (a b c : string) :
  Py.str_le a b -> Py.str_le b c -> Py.str_le a c.
Proof.
  rewrite !str_le_cases. intros [H1 | ->] [H2 | ->]; auto.
  left. eapply compare_lt_trans; eauto.
Qed.

#[global] Instance tuple_le_total : Total Py.tuple_le.
Proof.
  intros [a1 a2] [b1 b2]. unfold Py.tuple_le. simpl.
  rewrite (String.compare_antisym b1 a1).
  destruct (String.compare a1 b1); simpl; auto.
  apply String.leb_total.
Qed.

#[global] Instance tuple_le_trans : Transitive Py.tuple_le.
Proof.
  intros [a1 a2] [b1 b2] [c1 c2]. unfold Py.tuple_le. simpl.
  destruct (String.compare a1 b1) eqn:Eab; try contradiction;
    destruct (String.compare b1 c1) eqn:Ebc; try contradiction;
    intros H1 H2.
  - apply String.compare_eq_iff in Eab, Ebc. subst.
    rewrite compare_refl. eapply str_le_trans; eauto.
  - apply String.compare_eq_iff in Eab. subst. now rewrite Ebc.
  - apply String.compare_eq_iff in Ebc. subst. now rewrite Eab.
  - now rewrite (compare_lt_trans _ _ _ Eab Ebc).
Qed.

#[global] Instance tuple_le_antisym : AntiSymm (=) Py.tuple_le.
Proof.
  intros [a1 a2] [b1 b2]. unfold Py.tuple_le. simpl.
  rewrite (String.compare_antisym b1 a1).
  destruct (String.compare a1 b1) eqn:E; simpl; try contradiction.
  intros H1 H2. apply String.compare_eq_iff in E. subst.
  f_equal. now apply String.leb_antisym.
Qed.



Lemma list_sort_permutation (l : list (string * string)) :
  Permutation (list_sort l) l.
Proof. apply merge_sort_Permutation. Qed.



End Order.

(** ** The Directory Resolver *)

Section Resolver.

Context {X : Type} (h : Host X).

Lemma collect_repositories_run dir_path dir_name names (w : World X) :
  collect_repositories h dir_path dir_name names w
  = (Returned (repositories_of h w dir_path dir_name names), w, []).
Proof.
  induction names as [|item rest IH]; [reflexivity|].
  cbn [collect_repositories]. unfold bind.
  rewrite directory_is_git_repo_run, IH. unfold ret, repositories_of.
  cbn [List.filter].
  destruct (is_git_repo_at h w (Py.os_path_join dir_path item));
    reflexivity.
Qed.

(** The Resolver, branch by branch. *)
Lemma update_directory_run dir_path dir_name is_bookmark (w : World X) :
  _update_directory h dir_path dir_name is_bookmark w =
  match host_listdir h w dir_path with
  | None => (Returned tt, w,
             [Out 0 (cannot_enter_error h is_bookmark dir_path)])
  | Some names =>
      match host_stat h w dir_path with
      | Some Directory =>
          if is_git_repo_at h w dir_path then
            let '(o, w', t) := _update_repository h dir_path dir_name w in
            (o, w', Out 0 (repository_report h is_bookmark dir_path) :: t)
          else
            let '(o, w', t) :=
              update_each h
                (list_sort (repositories_of h w dir_path dir_name names))
                w in
            (o, w',
             Out 0 (Py.capitalize (dir_long_name h is_bookmark dir_path) ++
                    (if Nat.eqb
                          (length
                             (repositories_of h w dir_path dir_name names))
                          1
                     then singular_count
                     else plural_count
                            (length
                               (repositories_of h w dir_path dir_name
                                                names)))) :: t)
      | Some _ => (Returned tt, w,
                   [Out 0 (not_a_directory_error h is_bookmark dir_path)])
      | None => (Returned tt, w,
                 [Out 0 (does_not_exist_error h is_bookmark dir_path)])
      end
  end.
Proof.
  unfold _update_directory.
  fold (dir_long_name h is_bookmark dir_path).
  unfold bind at 1, try_except, os_listdir at 1.
  destruct (host_listdir h w dir_path) as [names|] eqn:Hls;
    cbn [is_OSError]; [|reflexivity].
  unfold bind at 1, os_path_isdir at 1.
  destruct (host_stat h w dir_path) as [[]|] eqn:Hst; cbn [negb].
  - unfold bind at 1. rewrite directory_is_git_repo_run.
    destruct (is_git_repo_at h w dir_path) eqn:Hrepo.
    + unfold bind, out, emit.
      destruct (_update_repository h dir_path dir_name w) as [[o w'] t].
      reflexivity.
    + unfold bind at 1, os_listdir. rewrite Hls.
      unfold bind at 1. rewrite collect_repositories_run.
      unfold bind at 1.
      destruct (Nat.eqb (length (repositories_of h w dir_path dir_name names)) 1);
        unfold out, emit, update_each;
        destruct (for_each _ _ w) as [[o w'] t]; reflexivity.
  - unfold bind, os_path_exists. rewrite Hst. reflexivity.
  - unfold bind, os_path_exists. rewrite Hst. reflexivity.
  - unfold bind, os_path_exists. rewrite Hst. reflexivity.
Qed.

Lemma updated_paths_app (t1 t2 : list event) :
  updated_paths (t1 ++ t2) = (updated_paths t1 ++ updated_paths t2)%list.
Proof.
  induction t1 as [|e t1 IH]; [reflexivity|].
  destruct e; simpl; try assumption. now rewrite IH.
Qed.

Lemma level0_lines_app (t1 t2 : list event) :
  level0_lines (t1 ++ t2) = (level0_lines t1 ++ level0_lines t2)%list.
Proof.
  induction t1 as [|e t1 IH]; [reflexivity|].
  destruct e as [[|l] m| | |]; simpl; try assumption. now rewrite IH.
Qed.

Lemma updated_paths_none (t : list event) :
  (forall q, ~ In (Chdir q) t) -> updated_paths t = [].
Proof.
  induction t as [|e t IH]; intros N; [reflexivity|].
  assert (updated_paths t = []) as E
      by (apply IH; intros q Hq; apply (N q); now right).
  destruct e; simpl; try exact E.
  exfalso. eapply N. now left.
Qed.

Lemma level0_lines_none (t : list event) :
  (forall m, ~ In (Out 0 m) t) -> level0_lines t = [].
Proof.
  induction t as [|e t IH]; intros N; [reflexivity|].
  assert (level0_lines t = []) as E
      by (apply IH; intros q Hq; apply (N q); now right).
  destruct e as [[|l] m| | |]; simpl; try exact E.
  exfalso. eapply N. now left.
Qed.

(** One run of the Updater enters one directory and writes no
    top-level line. *)
Lemma update_repository_footprint repo_path repo_name (w : World X) o w' t :
  _update_repository h repo_path repo_name w = (o, w', t) ->
  updated_paths t = [repo_path] /\ level0_lines t = [].
Proof.
  intros R. apply update_repository_cases in R as [S _].
  destruct (shape_inv h _ _ _ _ _ S) as (rest & -> & Hcd & Hout & _).
  simpl. now rewrite updated_paths_none, level0_lines_none.
Qed.

(** The loop over the repositories runs the Updater on them one
    after the other, and stops at the first one that raises. *)
Lemma update_each_footprint repositories (w : World X) o w' t :
  update_each h repositories w = (o, w', t) ->
  (exists later,
      List.map fst repositories = (updated_paths t ++ later)%list)
  /\ (o = Returned tt -> updated_paths t = List.map fst repositories)
  /\ level0_lines t = [].
Proof.
  revert w o w' t.
  induction repositories as [|[p n] rest IH]; intros w o w' t R.
  - injection R as <- <- <-. simpl. split; [now exists []|]. now split.
  - unfold update_each in R. cbn [for_each] in R. unfold bind in R.
    destruct (_update_repository h p n w) as [[o1 w1] t1] eqn:R1.
    apply update_repository_footprint in R1 as [P1 L1].
    destruct o1 as [[]|e].
    + destruct (for_each rest _ w1) as [[o2 w2] t2] eqn:R2.
      injection R as <- <- <-.
      apply IH in R2 as ([later E] & F & L).
      rewrite updated_paths_app, level0_lines_app, P1, L1, L.
      cbn [List.map fst app]. split; [|split].
      * exists later. now rewrite E.
      * intros Ho. now rewrite (F Ho).
      * reflexivity.
    + injection R as <- <- <-. rewrite P1, L1. cbn [List.map fst app].
      split; [now exists (List.map fst rest)|]. split; [discriminate|].
      reflexivity.
Qed.



(** The Updater does not list directories. *)
Lemma update_each_with_listdir listing :
  update_each (with_listdir h listing) = update_each h.
Proof. reflexivity. Qed.

End Resolver.




(** The children b, a, c are updated in the order a, b, c, and so they
    are when the directory lists them as c, b, a. *)
Example children_b_a_c_are_updated_as_a_b_c :
  let host := Demo.host Demo.srv Demo.dirty in
  let other :=
    with_listdir host
      (fun w path => option_map (@List.rev string) (host_listdir host w path)) in
  host_listdir host Demo.start "/srv" = Some ["b"; "notes.txt"; "a"; "wt"; "c"]
  /\ host_listdir other Demo.start "/srv"
     = Some ["c"; "wt"; "a"; "notes.txt"; "b"]
  /\ updated_paths
       (_update_directory host "/srv" "srv" false Demo.start).2
     = ["/srv/a"; "/srv/b"; "/srv/c"]
  /\ _update_directory other "/srv" "srv" false Demo.start
     = _update_directory host "/srv" "srv" false Demo.start.
Proof. vm_compute. repeat split. Qed.

(** C7. In a container directory the count message is the only
    top-level line; it reads "contains 1 git repository:" exactly when
    one repository was found, and "contains N git repositories:" with
    the number found when none or several were. *)
Theorem C7_count_message_wording {X : Type} (h : Host X)
        (w : World X) (dir_path dir_name : string) (is_bookmark : bool)
        (names : list string)
        (o : outcome unit) (w' : World X) (t : list event) :
  is_container h w dir_path names ->
  _update_directory h dir_path dir_name is_bookmark w = (o, w', t) ->
  let n := length (repositories_of h w dir_path dir_name names) in
  exists phrase rest,
    t = Out 0 (Py.capitalize (dir_long_name h is_bookmark dir_path) ++ phrase)
          :: rest
    /\ level0_lines rest = []
    /\ (n = 1 -> phrase = " contains 1 git repository:")
    /\ (n <> 1 ->
        phrase = " contains " ++ Py.str_of_nat n ++ " git repositories:")
    /\ (phrase = " contains 1 git repository:" <-> n = 1).
Proof.
  intros (Hls & Hst & Hrepo) R n.
  rewrite update_directory_run, Hls, Hst, Hrepo in R. fold n in R.
  destruct (update_each h _ w) as [[o1 w1] t1] eqn:R1.
  injection R as <- <- <-.
  apply update_each_footprint in R1 as (_ & _ & L).
  do 2 eexists. split; [reflexivity|]. split; [exact L|].
  destruct (Nat.eqb_spec n 1) as [E|N].
  - repeat split; auto. contradiction.
  - split; [contradiction|]. split; [reflexivity|].
    split; [|contradiction].
    intros E. exfalso. apply (f_equal String.length) in E.
    unfold plural_count in E. rewrite !length_append in E.
    pose proof (str_of_nat_nonempty n). simpl in E. lia.
Qed.

Lemma C7_count_message_wording_witness :
  exists rest,
    (_update_directory (Demo.host Demo.srv Demo.quiet)
                       "/srv" "srv" false Demo.start).2
    = Out 0 "Directory '/srv' contains 3 git repositories:" :: rest.
Proof.
  pose proof (C7_count_message_wording
                (Demo.host Demo.srv Demo.quiet) Demo.start "/srv" "srv" false
                ["b"; "notes.txt"; "a"; "wt"; "c"]) as T.
  destruct (_update_directory (Demo.host Demo.srv Demo.quiet)
                              "/srv" "srv" false Demo.start)
    as [[o w'] t] eqn:R.
  specialize (T o w' t).
  destruct T as (phrase & rest & -> & _ & _ & Hplural & _).
  - repeat split.
  - reflexivity.
  - exists rest. simpl. rewrite Hplural; [reflexivity|].
    vm_compute. discriminate.
Defined.

Example one_repository_is_singular :
  (_update_directory
     (Demo.host [("/one", Demo.Dir ["x"]); ("/one/x", Demo.Dir [".git"]);
                 ("/one/x/.git", Demo.Dir [])] Demo.quiet)
     "/one" "one" true Demo.start).2
  = [Out 0 "Bookmark '/one' contains 1 git repository:";
     Out 1 "one/x:"; Chdir "/one/x";
     Exec "/one/x" fetch_argv (inr EmptyString);
     Exec "/one/x" log_argv (inr ("2 days ago" ++ Demo.newline));
     Out 2 "No new changes. Last commit was 2 days ago."].
Proof. vm_compute. reflexivity. Qed.

Example no_repository_is_plural :
  _update_directory (Demo.host [("/empty", Demo.Dir [])] Demo.quiet)
                    "/empty" "empty" false Demo.start
  = (Returned tt, Demo.start,
     [Out 0 "Directory '/empty' contains 0 git repositories:"]).
Proof. vm_compute. reflexivity. Qed.

(** C4, on a path that is a regular file and on a path that does not
    exist: both get the same message, the one for a directory that
    cannot be entered, and neither "is not a directory" nor "does not
    exist"; the Resolver then stops, and a bookmark differs in the
    wording only. *)
Theorem C4_file_and_missing_path_get_the_same_message :
  let host := Demo.host Demo.srv Demo.quiet in
  host_stat host Demo.start "/srv/notes.txt" = Some RegularFile
  /\ host_stat host Demo.start "/srv/missing" = None
  /\ _update_directory host "/srv/notes.txt" "notes.txt" false Demo.start
     = (Returned tt, Demo.start,
        [Out 0 "Error: cannot enter directory '/srv/notes.txt'; does it exist?"])
  /\ _update_directory host "/srv/missing" "missing" false Demo.start
     = (Returned tt, Demo.start,
        [Out 0 "Error: cannot enter directory '/srv/missing'; does it exist?"])
  /\ _update_directory host "/srv/notes.txt" "notes.txt" true Demo.start
     = (Returned tt, Demo.start,
        [Out 0 "Error: cannot enter bookmark '/srv/notes.txt'; does it exist?"]).
Proof. vm_compute. repeat split. Qed.

(** Whatever cannot be listed gets that one message, and the Resolver
    stops there: nothing else is emitted and nothing changes. *)
Lemma unlistable_path_is_reported_once {X : Type} (h : Host X)
      (w : World X) (dir_path dir_name : string) (is_bookmark : bool) :
  host_listdir h w dir_path = None ->
  _update_directory h dir_path dir_name is_bookmark w
  = (Returned tt, w, [Out 0 (cannot_enter_error h is_bookmark dir_path)]).
Proof. intros E. now rewrite update_directory_run, E. Qed.

(** The two other error messages need a path that can be listed and
    yet is not a directory. *)
Lemma distinct_errors_are_unreachable {X : Type} (h : Host X)
      (w : World X) (dir_path dir_name : string) (is_bookmark : bool) :
  (forall names, host_listdir h w dir_path = Some names ->
                 host_stat h w dir_path = Some Directory) ->
  _update_directory h dir_path dir_name is_bookmark w
  = (Returned tt, w, [Out 0 (cannot_enter_error h is_bookmark dir_path)])
  \/ host_stat h w dir_path = Some Directory.
Proof.
  intros C. destruct (host_listdir h w dir_path) as [names|] eqn:E.
  - right. eauto.
  - left. now apply unlistable_path_is_reported_once.
Qed.

(** C5, on a command whose output does not end in a newline: the
    last character goes all the same. *)
Theorem C5_last_character_is_dropped :
  _exec_shell (Demo.host [] Demo.printf) "printf abc" Demo.start
  = (Returned "ab", Demo.start,
     [Exec "/home/me" ["printf"; "abc"] (inr "abc")]).
Proof. vm_compute. reflexivity. Qed.

(** In general: whatever the last character of a non-empty output
    is, it is removed. *)
Lemma exec_shell_drops_last_character {X : Type} (h : Host X)
      (w : World X) command program args body (last : ascii) x :
  Shlex.split command = Some (program :: args) ->
  host_run h w (program :: args)
  = (inr (body ++ String last EmptyString), x) ->
  _exec_shell h command w
  = (Returned body, mkWorld x (cwd w),
     [Exec (cwd w) (program :: args)
           (inr (body ++ String last EmptyString))]).
Proof.
  intros E R. rewrite (exec_shell_returned h _ _ _ _ _ _ E R).
  now rewrite text_of_snoc.
Qed.

(** ** The Batch Driver *)

Section Bookmarks.

Context {X : Type} (h : Host X).

Lemma level0_lines_in (t : list event) (m : string) :
  In (Out 0 m) t -> In m (level0_lines t).
Proof.
  induction t as [|e t IH]; [contradiction|].
  intros [-> | Hin]; [now left|].
  destruct e as [[|l] m'| | |]; simpl; auto.
Qed.

Lemma startswith_empty (s : string) : Py.startswith s EmptyString = true.
Proof. now destruct s. Qed.

(** Appending in front does not change the last character. *)
Lemma not_a_sentence_app (a b : string) :
  b <> EmptyString /\ Py.endswith b "." = false ->
  a ++ b <> EmptyString /\ Py.endswith (a ++ b) "." = false.
Proof.
  intros [Hne Hend]. split.
  - destruct a; [exact Hne | discriminate].
  - unfold Py.endswith in *. rewrite reversed_append.
    destruct (Py.reversed b) as [|c r] eqn:E.
    + exfalso. apply Hne. rewrite <- (reversed_involutive b), E. reflexivity.
    + change (Py.reversed ".") with "." in *. simpl in *.
      now rewrite startswith_empty in *.
Qed.

Local Ltac not_a_sentence :=
  repeat apply not_a_sentence_app; split; [discriminate | reflexivity].

(** Every run of the Resolver writes exactly one top-level line, and
    it does not end in a full stop. *)
Lemma update_directory_footprint dir_path dir_name is_bookmark
      (w : World X) o w' t :
  _update_directory h dir_path dir_name is_bookmark w = (o, w', t) ->
  exists msg,
    level0_lines t = [msg] /\ Py.endswith msg "." = false.
Proof.
  rewrite update_directory_run.
  destruct (host_listdir h w dir_path) as [names|].
  2:{ intros R. injection R as <- <- <-. eexists. split; [reflexivity|].
      unfold cannot_enter_error. not_a_sentence. }
  destruct (host_stat h w dir_path) as [[]|].
  - destruct (is_git_repo_at h w dir_path).
    + destruct (_update_repository h dir_path dir_name w)
        as [[o1 w1] t1] eqn:R1.
      intros R. injection R as <- <- <-.
      apply update_repository_footprint in R1 as [_ L].
      eexists. simpl. rewrite L. split; [reflexivity|].
      unfold repository_report. not_a_sentence.
    + destruct (update_each h _ w) as [[o1 w1] t1] eqn:R1.
      intros R. injection R as <- <- <-.
      apply update_each_footprint in R1 as (_ & _ & L).
      eexists. simpl. rewrite L. split; [reflexivity|].
      destruct (Nat.eqb _ 1); unfold singular_count, plural_count;
        not_a_sentence.
  - intros R. injection R as <- <- <-. eexists. split; [reflexivity|].
    unfold not_a_directory_error. not_a_sentence.
  - intros R. injection R as <- <- <-. eexists. split; [reflexivity|].
    unfold not_a_directory_error. not_a_sentence.
  - intros R. injection R as <- <- <-. eexists. split; [reflexivity|].
    unfold does_not_exist_error. not_a_sentence.
Qed.

Lemma bookmarks_loop bookmarks (w : World X) o w' t :
  for_each bookmarks
           (fun '(bookmark_path, bookmark_name) =>
              _update_directory h bookmark_path bookmark_name true) w
  = (o, w', t) ->
  resolved_in_order h bookmarks w (o, w', t)
  /\ Forall (fun m => Py.endswith m "." = false) (level0_lines t)
  /\ length (level0_lines t) <= length bookmarks
  /\ (o = Returned tt -> length (level0_lines t) = length bookmarks).
Proof.
  revert w o w' t.
  induction bookmarks as [|[p n] rest IH]; intros w o w' t R.
  - injection R as <- <- <-. simpl.
    repeat split; auto. constructor.
  - cbn [for_each] in R. unfold bind in R.
    destruct (_update_directory h p n true w) as [[o1 w1] t1] eqn:R1.
    pose proof (update_directory_footprint _ _ _ _ _ _ _ R1)
      as (msg & L1 & E1).
    destruct o1 as [[]|e].
    + destruct (for_each rest _ w1) as [[o2 w2] t2] eqn:R2.
      injection R as <- <- <-.
      apply IH in R2 as (Hres & Hall & Hle & Heq).
      rewrite level0_lines_app, L1. cbn [app length].
      split; [eapply resolved_next; eauto|].
      split; [constructor; assumption|].
      split; [lia|]. intros Ho. rewrite (Heq Ho). reflexivity.
    + injection R as <- <- <-. rewrite L1. cbn [length].
      split; [eapply resolved_stop; eauto|].
      split; [repeat constructor; assumption|].
      split; [lia | discriminate].
Qed.

End Bookmarks.

(** The Resolver is not run once per bookmark when an update raises:
    with a status that fails in the first bookmark, the second is
    never resolved. *)
Lemma C8_failed_status_leaves_later_bookmarks_untouched :
  let run :=
    update_bookmarks (Demo.host Demo.srv Demo.status_fails)
                     [("/srv/a", "a"); ("/srv/b", "b")] Demo.start in
  run.1.1 = Raised CalledProcessError
  /\ level0_lines run.2 = ["Bookmark '/srv/a' is a git repository:"]
  /\ updated_paths run.2 = ["/srv/a"].
Proof. vm_compute. repeat split. Qed.

(** C8, as the code has it.  On an empty list of bookmarks
    [update_bookmarks] emits the guidance message and nothing else,
    and changes nothing.  On a non-empty list it runs the Resolver on
    the bookmarks in order, as bookmarks, once each: on all of them
    when it returns, and up to the bookmark whose update raised
    otherwise, the ones after it being left alone; it does not emit
    the guidance message. *)
Theorem C8_update_bookmarks {X : Type} (h : Host X) (w : World X) :
  update_bookmarks h [] w
  = (Returned tt, w,
     [Out 0 "You don't have any bookmarks configured! Get help with 'gitup -h'."])
  /\ forall bookmark rest o w' t,
      update_bookmarks h (bookmark :: rest) w = (o, w', t) ->
      resolved_in_order h (bookmark :: rest) w (o, w', t)
      /\ ~ In (Out 0 guidance) t
      /\ length (level0_lines t) <= length (bookmark :: rest)
      /\ (o = Returned tt ->
          length (level0_lines t) = length (bookmark :: rest)).
Proof.
  split; [reflexivity|].
  intros bookmark rest o w' t R.
  unfold update_bookmarks in R.
  apply bookmarks_loop in R as (Hres & Hall & Hle & Heq).
  repeat split; auto.
  intros Hin. apply level0_lines_in in Hin.
  rewrite Forall_forall in Hall. apply list_elem_of_In, Hall in Hin.
  vm_compute in Hin. discriminate Hin.
Qed.

Lemma C8_update_bookmarks_witness :
  level0_lines
    (update_bookmarks (Demo.host Demo.srv Demo.quiet)
                      [("/srv/b", "b"); ("/srv", "all"); ("/nowhere", "n")]
                      Demo.start).2
  = ["Bookmark '/srv/b' is a git repository:";
     "Bookmark '/srv' contains 3 git repositories:";
     "Error: cannot enter bookmark '/nowhere'; does it exist?"]
  /\ ~ In (Out 0 guidance)
        (update_bookmarks (Demo.host Demo.srv Demo.quiet)
                          [("/srv/b", "b"); ("/srv", "all"); ("/nowhere", "n")]
                          Demo.start).2.
Proof.
  split; [vm_compute; reflexivity|].
  destruct (C8_update_bookmarks (Demo.host Demo.srv Demo.quiet) Demo.start)
    as [_ T].
  destruct (update_bookmarks (Demo.host Demo.srv Demo.quiet)
                             [("/srv/b", "b"); ("/srv", "all"); ("/nowhere", "n")]
                             Demo.start)
    as [[o w'] t] eqn:R.
  exact (proj1 (proj2 (T _ _ _ _ _ R))).
Defined.

(** ** What reaches the Updater *)

Section Discovery.

Context {X : Type} (h : Host X).

Lemma repositories_of_are_repositories (w : World X) dir_path dir_name
      names path :
  In path (List.map fst (repositories_of h w dir_path dir_name names)) ->
  is_git_repo_at h w path = true.
Proof.
  unfold repositories_of. rewrite List.map_map. cbn [fst].
  rewrite in_map_iff. intros (item & <- & Hin).
  now apply filter_In in Hin as [_ E].
Qed.

(** The Resolver hands to the Updater only what the Probe accepted. *)
Lemma update_directory_updates_only_repositories dir_path dir_name
      is_bookmark (w : World X) o w' t path :
  _update_directory h dir_path dir_name is_bookmark w = (o, w', t) ->
  In path (updated_paths t) ->
  is_git_repo_at h w path = true.
Proof.
  rewrite update_directory_run.
  destruct (host_listdir h w dir_path) as [names|];
    [| intros R; injection R as <- <- <-; contradiction].
  destruct (host_stat h w dir_path) as [[]|];
    try (intros R; injection R as <- <- <-; contradiction).
  destruct (is_git_repo_at h w dir_path) eqn:Hrepo.
  - destruct (_update_repository h dir_path dir_name w)
      as [[o1 w1] t1] eqn:R1.
    intros R. injection R as <- <- <-.
    apply update_repository_footprint in R1 as [P _].
    cbn [updated_paths]. rewrite P. intros [<- | []]. exact Hrepo.
  - destruct (update_each h _ w) as [[o1 w1] t1] eqn:R1.
    intros R. injection R as <- <- <-.
    apply update_each_footprint in R1 as ([later E] & _ & _).
    cbn [updated_paths]. intros Hin.
    apply (repositories_of_are_repositories w dir_path dir_name names).
    apply (Permutation_in path
             (Permutation_map fst (list_sort_permutation _))).
    rewrite E. apply in_or_app. now left.
Qed.

End Discovery.

(** C10. A path whose [.git] entry is a regular file is not a
    repository for the Probe, so the Resolver never runs the Updater on
    it: neither when it is the directory given, nor as a child of a
    container. *)
Theorem C10_git_file_is_not_a_repository {X : Type} (h : Host X)
        (w : World X) (path : string) :
  host_stat h w (Py.os_path_join path ".git") = Some RegularFile ->
  _directory_is_git_repo h path w = (Returned false, w, [])
  /\ (forall dir_path dir_name names,
         ~ In path
              (List.map fst (repositories_of h w dir_path dir_name names)))
  /\ (forall dir_path dir_name is_bookmark o w' t,
         _update_directory h dir_path dir_name is_bookmark w = (o, w', t) ->
         ~ In path (updated_paths t)).
Proof.
  intros G.
  assert (Hno : is_git_repo_at h w path = false).
  { unfold is_git_repo_at. rewrite G. now destruct (host_stat h w path) as [[]|]. }
  split; [|split].
  - now rewrite directory_is_git_repo_run, Hno.
  - intros dir_path dir_name names Hin.
    apply repositories_of_are_repositories in Hin. congruence.
  - intros dir_path dir_name is_bookmark o w' t R Hin.
    pose proof (update_directory_updates_only_repositories
                  h _ _ _ _ _ _ _ _ R Hin).
    congruence.
Qed.

Lemma C10_git_file_is_not_a_repository_witness :
  _directory_is_git_repo (Demo.host Demo.srv Demo.quiet) "/srv/wt" Demo.start
  = (Returned false, Demo.start, [])
  /\ ~ In "/srv/wt"
        (updated_paths
           (_update_directory (Demo.host Demo.srv Demo.quiet)
                              "/srv" "srv" false Demo.start).2).
Proof.
  destruct (C10_git_file_is_not_a_repository
              (Demo.host Demo.srv Demo.quiet) Demo.start "/srv/wt")
    as (Hprobe & _ & Hnever); [reflexivity|].
  split; [exact Hprobe|].
  destruct (_update_directory (Demo.host Demo.srv Demo.quiet)
                              "/srv" "srv" false Demo.start)
    as [[o w'] t] eqn:R.
  exact (Hnever _ _ _ _ _ _ R).
Defined.

(** Given as the directory itself, such a checkout is taken for a
    container of repositories. *)
Example git_file_checkout_is_taken_for_a_container :
  _update_directory (Demo.host Demo.srv Demo.quiet)
                    "/srv/wt" "wt" false Demo.start
  = (Returned tt, Demo.start,
     [Out 0 "Directory '/srv/wt' contains 0 git repositories:"]).
Proof. vm_compute. reflexivity. Qed.

(** * Further properties of the module *)

(** ** One update of a repository *)

(** The Updater runs at most four commands, each at most once and in
    this order: dry-run fetch, log, status, pull. *)
Theorem updater_runs_its_commands_in_order {X : Type} (h : Host X)
        (w : World X) (repo_path repo_name : string) :
  exists later,
    [fetch_argv; log_argv; status_argv; pull_argv]
    = (commands (_update_repository h repo_path repo_name w).2 ++ later)%list.
Proof.
  destruct (update_repository_shape h repo_path repo_name w)
    as (o & w' & t & R & S & _).
  rewrite R. inversion S; subst; cbn [snd commands app];
    eexists; reflexivity.
Qed.

(** A pull is issued only after the dry-run fetch printed something
    and a status was read whose text ends with the clean-tree marker. *)
Theorem pull_only_after_a_clean_status {X : Type} (h : Host X)
        (w : World X) (repo_path repo_name : string)
        (o : outcome unit) (w' : World X) (t : list event)
        (dir : string) (result : exn + string) :
  _update_repository h repo_path repo_name w = (o, w', t) ->
  In (Exec dir pull_argv result) t ->
  exists fetched status before,
    In (Exec dir fetch_argv (inr fetched)) t
    /\ text_of fetched <> EmptyString
    /\ In (Exec dir status_argv (inr status)) t
    /\ text_of status = before ++ clean_marker.
Proof.
  intros R Hin. apply update_repository_cases in R as [S _].
  inversion S; subst; explode Hin; try discriminate Hin; try contradiction;
    injection Hin as <- _;
    match goal with
    | C : Py.endswith (text_of ?st) clean_marker = true |- _ =>
        apply endswith_spec in C as [before C];
        exists fetched, st, before
    end;
    (split; [simpl; tauto|]); (split; [assumption|]);
    (split; [simpl; tauto | assumption]).
Qed.

Lemma pull_only_after_a_clean_status_witness :
  exists before,
    text_of ("On branch master" ++ Demo.newline ++ clean_marker ++ Demo.newline)
    = before ++ clean_marker.
Proof.
  destruct (_update_repository (Demo.host Demo.srv Demo.behind)
                               "/srv/a" "a" Demo.start)
    as [[o w'] t] eqn:R.
  assert (Hin : In (Exec "/srv/a" pull_argv
                         (inr ("Fast-forward" ++ Demo.newline))) t)
    by (vm_compute in R; injection R as _ _ <-; simpl; tauto).
  destruct (pull_only_after_a_clean_status _ _ _ _ _ _ _ _ _ R Hin)
    as (fetched & status & before & _ & _ & Hst & E).
  assert (Hs : status
               = "On branch master" ++ Demo.newline ++ clean_marker
                 ++ Demo.newline).
  { vm_compute in R. injection R as _ _ <-.
    explode Hst; try discriminate Hst; try contradiction.
    now injection Hst as <-. }
  subst status. now exists before.
Defined.

(** When the dry-run fetch prints nothing (or a single character, a
    lone newline as a rule), neither status nor pull is run; the update
    ends with the "No new changes" report, which carries the age of
    the last commit, unless [git log] could not be run at all. *)
Theorem nothing_upstream_means_no_status_and_no_pull {X : Type}
        (h : Host X) (w : World X) (repo_path repo_name : string)
        (o : outcome unit) (w' : World X) (t : list event)
        (dir fetched : string) :
  _update_repository h repo_path repo_name w = (o, w', t) ->
  In (Exec dir fetch_argv (inr fetched)) t ->
  text_of fetched = EmptyString ->
  commands t = [fetch_argv; log_argv]
  /\ (o = Returned tt ->
      exists before logged age,
        t = (before ++ [Exec dir log_argv logged;
                        Out 2 (no_changes_report h age)])%list
        /\ age_of logged = Some age)
  /\ (forall e, o = Raised e ->
                e <> CalledProcessError
                /\ exists before, t = (before ++ [Exec dir log_argv (inl e)])%list).
Proof.
  intros R Hin Hempty. apply update_repository_cases in R as [S _].
  inversion S; subst; explode Hin; try discriminate Hin; try contradiction;
    injection Hin as <- <-; try congruence.
  - split; [reflexivity|]. split; [discriminate|].
    intros e' E. injection E as <-. split; [assumption|].
    now eexists [_; _; _].
  - split; [reflexivity|]. split; [|discriminate].
    intros _. eexists [_; _; _], _, _. split; [reflexivity | eassumption].
Qed.

Lemma nothing_upstream_means_no_status_and_no_pull_witness :
  commands (_update_repository (Demo.host Demo.srv Demo.quiet)
                               "/srv/a" "a" Demo.start).2
  = [fetch_argv; log_argv].
Proof.
  destruct (_update_repository (Demo.host Demo.srv Demo.quiet)
                               "/srv/a" "a" Demo.start)
    as [[o w'] t] eqn:R.
  assert (Hin : In (Exec "/srv/a" fetch_argv (inr EmptyString)) t)
    by (vm_compute in R; injection R as _ _ <-; simpl; tauto).
  exact (proj1 (nothing_upstream_means_no_status_and_no_pull
                  _ _ _ _ _ _ _ _ _ R Hin eq_refl)).
Defined.

(** After a pull that went through, the Updater reports the changes
    with the age the last commit had before the pull, hands the text of
    the pull to [print] as it is, and returns; nothing follows. *)
Theorem successful_pull_is_reported_and_printed {X : Type} (h : Host X)
        (w : World X) (repo_path repo_name : string)
        (o : outcome unit) (w' : World X) (t : list event)
        (dir pulled : string) :
  _update_repository h repo_path repo_name w = (o, w', t) ->
  In (Exec dir pull_argv (inr pulled)) t ->
  o = Returned tt
  /\ exists before logged age,
      t = (before ++ [Exec dir pull_argv (inr pulled);
                      Out 2 (changes_report age);
                      Print (text_of pulled)])%list
      /\ In (Exec dir log_argv logged) before
      /\ age_of logged = Some age.
Proof.
  intros R Hin. apply update_repository_cases in R as [S _].
  inversion S; subst; explode Hin; try discriminate Hin; try contradiction.
  injection Hin as <- <-. split; [reflexivity|].
  eexists [_; _; _; _; _; _; _], _, _.
  split; [reflexivity|]. split; [simpl; tauto | eassumption].
Qed.

Lemma successful_pull_is_reported_and_printed_witness :
  (_update_repository (Demo.host Demo.srv Demo.behind)
                      "/srv/a" "a" Demo.start).1.1 = Returned tt.
Proof.
  destruct (_update_repository (Demo.host Demo.srv Demo.behind)
                               "/srv/a" "a" Demo.start)
    as [[o w'] t] eqn:R.
  assert (Hin : In (Exec "/srv/a" pull_argv
                         (inr ("Fast-forward" ++ Demo.newline))) t)
    by (vm_compute in R; injection R as _ _ <-; simpl; tauto).
  exact (proj1 (successful_pull_is_reported_and_printed
                  _ _ _ _ _ _ _ _ _ R Hin)).
Defined.

(** The Updater writes its header at level 1 first and every other
    line at level 2. *)
Theorem updater_reports_at_two_levels {X : Type} (h : Host X)
        (w : World X) (repo_path repo_name : string) :
  exists rest k,
    (_update_repository h repo_path repo_name w).2
    = Out 1 (bold h repo_name ++ ":") :: rest
    /\ out_levels rest = List.repeat 2 k.
Proof.
  destruct (update_repository_shape h repo_path repo_name w)
    as (o & w' & t & R & S & _).
  rewrite R. cbn [snd].
  inversion S; subst; eexists;
    [ exists 0 | exists 1 | exists 0 | exists 0 | exists 1
    | exists 1 | exists 3 | exists 2 | exists 3 ];
    split; reflexivity.
Qed.

(** ** Resolving a directory *)

Section ResolverFacts.

Context {X : Type} (h : Host X).

Lemma level1_lines_app (t1 t2 : list event) :
  level1_lines (t1 ++ t2) = (level1_lines t1 ++ level1_lines t2)%list.
Proof.
  induction t1 as [|e t1 IH]; [reflexivity|].
  destruct e as [[|[|l]] m| | |]; simpl; try assumption. now rewrite IH.
Qed.

Lemma update_repository_header repo_path repo_name (w : World X) o w' t :
  _update_repository h repo_path repo_name w = (o, w', t) ->
  level1_lines t = [bold h repo_name ++ ":"].
Proof.
  intros R. apply update_repository_cases in R as [S _].
  inversion S; subst; reflexivity.
Qed.

Lemma update_each_headers repositories (w : World X) o w' t :
  update_each h repositories w = (o, w', t) ->
  (exists later,
      List.map (fun r => bold h r.2 ++ ":") repositories
      = (level1_lines t ++ later)%list)
  /\ (o = Returned tt ->
      level1_lines t = List.map (fun r => bold h r.2 ++ ":") repositories).
Proof.
  revert w o w' t.
  induction repositories as [|[p n] rest IH]; intros w o w' t R.
  - injection R as <- <- <-. simpl. split; [now exists []|]. reflexivity.
  - unfold update_each in R. cbn [for_each] in R. unfold bind in R.
    destruct (_update_repository h p n w) as [[o1 w1] t1] eqn:R1.
    apply update_repository_header in R1 as H1.
    destruct o1 as [[]|e].
    + destruct (for_each rest _ w1) as [[o2 w2] t2] eqn:R2.
      injection R as <- <- <-.
      apply IH in R2 as ([later E] & F).
      rewrite level1_lines_app, H1. cbn [List.map snd app]. split.
      * exists later. now rewrite E.
      * intros Ho. now rewrite (F Ho).
    + injection R as <- <- <-. rewrite H1. cbn [List.map snd app].
      split; [now eexists | discriminate].
Qed.



Lemma update_repository_stopped repo_path repo_name (w : World X) :
  stopped_by_uncaught_failure (_update_repository h repo_path repo_name w).
Proof.
  destruct (update_repository_shape h repo_path repo_name w)
    as (o & w' & t & R & S & _).
  rewrite R. intros e E. cbn [fst snd] in *. subst o.
  inversion S; subst.
  - eexists [_], _. split; [reflexivity|]. left. eauto.
  - eexists [_; _], _. split; [reflexivity|]. right.
    do 2 eexists. split; [reflexivity | contradiction].
  - eexists [_; _; _], _. split; [reflexivity|]. right.
    do 2 eexists. split; [reflexivity | contradiction].
  - eexists [_; _; _; _; _], _. split; [reflexivity|]. right.
    do 2 eexists. split; [reflexivity | auto].
  - eexists [_; _; _; _; _; _; _], _. split; [reflexivity|]. right.
    do 2 eexists. split; [reflexivity | auto].
Qed.


(** Making an argument absolute either fails, with the working
    directory gone and before anything is emitted, or leaves it to the
    Resolver on some path, named by its last segment. *)
Lemma update_directories_step path (w : World X) :
  (path' <- os_path_abspath h path ;;
   _update_directory h path' (Py.os_path_split_1 path') false) w
  = (Raised OSError, w, [])
    /\ host_getcwd h w = None
  \/ exists path',
      (path' <- os_path_abspath h path ;;
       _update_directory h path' (Py.os_path_split_1 path') false) w
      = _update_directory h path' (Py.os_path_split_1 path') false w.
Proof.
  unfold os_path_abspath.
  destruct (Py.startswith path "/"); cbn [negb].
  - right. exists (Py.os_path_normpath path). unfold bind, ret.
    now destruct (_update_directory h _ _ false w) as [[o w'] t].
  - unfold bind, os_getcwd, ret.
    destruct (host_getcwd h w) as [name|]; [right | left; now split].
    exists (Py.os_path_normpath (Py.os_path_join name path)).
    now destruct (_update_directory h _ _ false w) as [[o w'] t].
Qed.

Lemma for_each_level0 {A} (body : A -> M X unit) (xs : list A) :
  (forall x w o w' t,
      body x w = (o, w', t) ->
      (exists msg, level0_lines t = [msg] /\ Py.endswith msg "." = false)
      \/ (level0_lines t = [] /\ o <> Returned tt)) ->
  forall w o w' t,
    for_each xs body w = (o, w', t) ->
    Forall (fun m => Py.endswith m "." = false) (level0_lines t)
    /\ length (level0_lines t) <= length xs
    /\ (o = Returned tt -> length (level0_lines t) = length xs).
Proof.
  intros Hbody. induction xs as [|x xs IH]; intros w o w' t R.
  - injection R as <- <- <-. simpl. repeat split; auto.
  - cbn [for_each] in R. unfold bind in R.
    destruct (body x w) as [[o1 w1] t1] eqn:R1.
    apply Hbody in R1 as [(msg & L1 & E1) | (L1 & N1)].
    + destruct o1 as [[]|e].
      * destruct (for_each xs body w1) as [[o2 w2] t2] eqn:R2.
        injection R as <- <- <-.
        apply IH in R2 as (Hall & Hle & Heq).
        rewrite level0_lines_app, L1. cbn [app length].
        split; [constructor; assumption|].
        split; [lia|]. intros Ho. now rewrite (Heq Ho).
      * injection R as <- <- <-. rewrite L1. cbn [length].
        split; [repeat constructor; assumption|].
        split; [lia | discriminate].
    + destruct o1 as [[]|e]; [now contradiction N1|].
      injection R as <- <- <-. rewrite L1. cbn [length].
      split; [constructor|]. split; [lia | discriminate].
Qed.



End ResolverFacts.

(** Whatever exception leaves the Updater was raised by its last
    event: a failed [os.chdir], a command that could not be run, or a
    [git status] or [git pull] that exited with a non-zero status.  A
    dry-run fetch or a [git log] that exits with a non-zero status
    never does. *)
Theorem updater_stops_only_at_an_uncaught_failure {X : Type} (h : Host X)
        (w : World X) (repo_path repo_name : string) :
  stopped_by_uncaught_failure (_update_repository h repo_path repo_name w).
Proof. apply update_repository_stopped. Qed.


(** Given a directory that is itself a repository, the Resolver
    writes the line saying so and runs the Updater on that directory
    under the name it was given, once; what the directory contains is
    not looked at. *)
Theorem repository_is_updated_itself {X : Type} (h : Host X)
        (w : World X) (dir_path dir_name : string) (is_bookmark : bool)
        (names : list string) :
  host_listdir h w dir_path = Some names ->
  is_git_repo_at h w dir_path = true ->
  exists o w' t,
    _update_repository h dir_path dir_name w = (o, w', t)
    /\ _update_directory h dir_path dir_name is_bookmark w
       = (o, w', Out 0 (repository_report h is_bookmark dir_path) :: t)
    /\ updated_paths (Out 0 (repository_report h is_bookmark dir_path) :: t)
       = [dir_path].
Proof.
  intros Hls Hrepo.
  destruct (_update_repository h dir_path dir_name w) as [[o w'] t] eqn:R.
  exists o, w', t. split; [reflexivity|].
  rewrite update_directory_run, Hls, Hrepo.
  unfold is_git_repo_at in Hrepo.
  destruct (host_stat h w dir_path) as [[]|]; try discriminate Hrepo.
  rewrite R. split; [reflexivity|].
  now apply update_repository_footprint in R as [P _].
Qed.

Lemma repository_is_updated_itself_witness :
  updated_paths
    (_update_directory
       (Demo.host (("/srv/a/sub", Demo.Dir [".git"])
                     :: ("/srv/a/sub/.git", Demo.Dir [])
                     :: ("/srv/a", Demo.Dir [".git"; "sub"])
                     :: Demo.srv) Demo.quiet)
       "/srv/a" "a" true Demo.start).2
  = ["/srv/a"].
Proof.
  destruct (repository_is_updated_itself
              (Demo.host (("/srv/a/sub", Demo.Dir [".git"])
                            :: ("/srv/a/sub/.git", Demo.Dir [])
                            :: ("/srv/a", Demo.Dir [".git"; "sub"])
                            :: Demo.srv) Demo.quiet)
              Demo.start "/srv/a" "a" true [".git"; "sub"]
              eq_refl eq_refl)
    as (o & w' & t & _ & -> & P).
  exact P.
Defined.

(** In a container the header lines are the names of the repositories
    in the order in which they are updated, each the join of the
    container's name and the child's; and the Updater is run on
    immediate children only. *)
Theorem container_updates_its_children_by_name {X : Type} (h : Host X)
        (w : World X) (dir_path dir_name : string) (is_bookmark : bool)
        (names : list string)
        (o : outcome unit) (w' : World X) (t : list event) :
  is_container h w dir_path names ->
  _update_directory h dir_path dir_name is_bookmark w = (o, w', t) ->
  let ordered := list_sort (repositories_of h w dir_path dir_name names) in
  (forall r, In r ordered ->
             exists item,
               In item names
               /\ r = (Py.os_path_join dir_path item,
                       Py.os_path_join dir_name item))
  /\ (exists later,
         List.map (fun r => bold h r.2 ++ ":") ordered
         = (level1_lines t ++ later)%list)
  /\ (o = Returned tt ->
      level1_lines t = List.map (fun r => bold h r.2 ++ ":") ordered)
  /\ (forall path, In path (updated_paths t) ->
                   exists item,
                     In item names /\ path = Py.os_path_join dir_path item).
Proof.
  intros (Hls & Hst & Hrepo) R ordered.
  assert (Hchild : forall r, In r ordered ->
                             exists item,
                               In item names
                               /\ r = (Py.os_path_join dir_path item,
                                       Py.os_path_join dir_name item)).
  { intros r Hin.
    apply (Permutation_in r (list_sort_permutation _)) in Hin.
    unfold repositories_of in Hin. apply in_map_iff in Hin as (item & <- & Hin).
    apply filter_In in Hin as [Hin _]. eauto. }
  split; [exact Hchild|].
  rewrite update_directory_run, Hls, Hst, Hrepo in R. fold ordered in R.
  destruct (update_each h ordered w) as [[o1 w1] t1] eqn:R1.
  injection R as <- <- <-.
  pose proof (update_each_headers h _ _ _ _ _ R1) as (Hpre & Hall).
  pose proof (update_each_footprint h _ _ _ _ _ R1) as ([later E] & _ & _).
  cbn [level1_lines updated_paths].
  split; [exact Hpre|]. split; [exact Hall|].
  intros path Hin.
  assert (In path (List.map fst ordered))
    by (rewrite E; apply in_or_app; now left).
  apply in_map_iff in H as (r & <- & Hr).
  destruct (Hchild r Hr) as (item & Hitem & ->). eauto.
Qed.

Lemma container_updates_its_children_by_name_witness :
  level1_lines
    (_update_directory (Demo.host Demo.srv Demo.quiet)
                       "/srv" "code" false Demo.start).2
  = ["code/a:"; "code/b:"; "code/c:"].
Proof.
  pose proof (container_updates_its_children_by_name
                (Demo.host Demo.srv Demo.quiet) Demo.start "/srv" "code" false
                ["b"; "notes.txt"; "a"; "wt"; "c"]) as T.
  destruct (_update_directory (Demo.host Demo.srv Demo.quiet)
                              "/srv" "code" false Demo.start)
    as [[o w'] t] eqn:R.
  assert (Ho : o = Returned tt)
    by (vm_compute in R; now injection R as <- _ _).
  specialize (T o w' t).
  destruct T as (_ & _ & Hall & _).
  - repeat split.
  - reflexivity.
  - simpl. rewrite (Hall Ho). vm_compute. reflexivity.
Defined.

(** A container in which no child is a repository: the Resolver
    writes the count line with 0 and stops; no command is run and
    nothing changes. *)
Theorem container_without_repositories {X : Type} (h : Host X)
        (w : World X) (dir_path dir_name : string) (is_bookmark : bool)
        (names : list string) :
  is_container h w dir_path names ->
  (forall item, In item names ->
                is_git_repo_at h w (Py.os_path_join dir_path item) = false) ->
  _update_directory h dir_path dir_name is_bookmark w
  = (Returned tt, w,
     [Out 0 (Py.capitalize (dir_long_name h is_bookmark dir_path) ++
             " contains 0 git repositories:")]).
Proof.
  intros (Hls & Hst & Hrepo) Hnone.
  assert (E : repositories_of h w dir_path dir_name names = []).
  { unfold repositories_of.
    replace (List.filter _ names) with (@nil string); [reflexivity|].
    symmetry. clear Hls. induction names as [|item rest IH]; [reflexivity|].
    cbn [List.filter]. rewrite (Hnone item) by now left.
    apply IH. intros i Hi. apply Hnone. now right. }
  rewrite update_directory_run, Hls, Hst, Hrepo, E. reflexivity.
Qed.

Lemma container_without_repositories_witness :
  _update_directory (Demo.host Demo.srv Demo.quiet)
                    "/srv/wt" "wt" true Demo.start
  = (Returned tt, Demo.start,
     [Out 0 "Bookmark '/srv/wt' contains 0 git repositories:"]).
Proof.
  apply (container_without_repositories
           (Demo.host Demo.srv Demo.quiet) Demo.start "/srv/wt" "wt" true
           [".git"]).
  - repeat split.
  - intros item [<- | []]. reflexivity.
Defined.

(** Every run of the Resolver writes exactly one top-level line,
    whatever it finds. *)
Theorem resolver_writes_one_top_level_line {X : Type} (h : Host X)
        (w : World X) (dir_path dir_name : string) (is_bookmark : bool) :
  exists msg,
    level0_lines (_update_directory h dir_path dir_name is_bookmark w).2
    = [msg].
Proof.
  destruct (_update_directory h dir_path dir_name is_bookmark w)
    as [[o w'] t] eqn:R.
  destruct (update_directory_footprint h _ _ _ _ _ _ _ R) as (msg & L & _).
  now exists msg.
Qed.

(** The Updater is only ever run on what the Probe accepted when the
    Resolver was entered: an existing directory with a [.git]
    directory in it. *)
Theorem only_probed_repositories_are_updated {X : Type} (h : Host X)
        (w : World X) (dir_path dir_name : string) (is_bookmark : bool)
        (path : string) :
  In path
     (updated_paths (_update_directory h dir_path dir_name is_bookmark w).2) ->
  host_stat h w path = Some Directory
  /\ host_stat h w (Py.os_path_join path ".git") = Some Directory.
Proof.
  destruct (_update_directory h dir_path dir_name is_bookmark w)
    as [[o w'] t] eqn:R.
  intros Hin.
  pose proof (update_directory_updates_only_repositories
                h _ _ _ _ _ _ _ _ R Hin) as E.
  unfold is_git_repo_at in E.
  destruct (host_stat h w path) as [[]|]; try discriminate E.
  destruct (host_stat h w (Py.os_path_join path ".git")) as [[]|];
    try discriminate E.
  now split.
Qed.

Lemma only_probed_repositories_are_updated_witness :
  host_stat (Demo.host Demo.srv Demo.quiet) Demo.start "/srv/b"
  = Some Directory
  /\ host_stat (Demo.host Demo.srv Demo.quiet) Demo.start
               (Py.os_path_join "/srv/b" ".git")
     = Some Directory.
Proof.
  apply (only_probed_repositories_are_updated
           (Demo.host Demo.srv Demo.quiet) Demo.start "/srv" "srv" false).
  vm_compute. tauto.
Defined.

(** The origin of a directory, bookmark or argument, changes the
    wording of the one top-level line and nothing else: the outcome,
    the world left behind and the rest of the trace are the same. *)
Theorem origin_changes_the_wording_only {X : Type} (h : Host X)
        (w : World X) (dir_path dir_name : string) :
  exists o w' rest as_bookmark as_directory,
    _update_directory h dir_path dir_name true w
    = (o, w', Out 0 as_bookmark :: rest)
    /\ _update_directory h dir_path dir_name false w
       = (o, w', Out 0 as_directory :: rest).
Proof.
  rewrite !update_directory_run.
  destruct (host_listdir h w dir_path) as [names|];
    [| do 5 eexists; split; reflexivity].
  destruct (host_stat h w dir_path) as [[]|];
    try (do 5 eexists; split; reflexivity).
  destruct (is_git_repo_at h w dir_path).
  - destruct (_update_repository h dir_path dir_name w) as [[o w'] t].
    do 5 eexists; split; reflexivity.
  - destruct (update_each h _ w) as [[o w'] t].
    do 5 eexists; split; reflexivity.
Qed.

(** ** The batch drivers *)

(** [update_directories] does nothing on an empty list (there is no
    guidance message here); otherwise it writes one top-level line per
    argument it got to, all of them when it returns, and never the
    guidance message of [update_bookmarks]. *)
Theorem update_directories_one_line_per_argument {X : Type} (h : Host X)
        (w : World X) :
  update_directories h [] w = (Returned tt, w, [])
  /\ forall paths o w' t,
      update_directories h paths w = (o, w', t) ->
      length (level0_lines t) <= length paths
      /\ (o = Returned tt -> length (level0_lines t) = length paths)
      /\ ~ In (Out 0 guidance) t.
Proof.
  split; [reflexivity|].
  intros paths o w' t R. unfold update_directories in R.
  apply for_each_level0 in R as (Hall & Hle & Heq).
  - repeat split; auto.
    intros Hin. apply level0_lines_in in Hin.
    rewrite Forall_forall in Hall. apply list_elem_of_In, Hall in Hin.
    vm_compute in Hin. discriminate Hin.
  - intros path w0 o0 w0' t0 R0.
    destruct (update_directories_step h path w0) as [[E G] | [path' E]];
      rewrite E in R0.
    + right. injection R0 as <- <- <-. split; [reflexivity | discriminate].
    + left. eapply update_directory_footprint. exact R0.
Qed.

Lemma update_directories_one_line_per_argument_witness :
  length
    (level0_lines
       (update_directories (Demo.host Demo.srv Demo.quiet)
                           ["/srv/b/"; "/srv/../srv"; "/nowhere"]
                           Demo.start).2)
  = 3.
Proof.
  destruct (update_directories_one_line_per_argument
              (Demo.host Demo.srv Demo.quiet) Demo.start) as [_ T].
  destruct (update_directories (Demo.host Demo.srv Demo.quiet)
                               ["/srv/b/"; "/srv/../srv"; "/nowhere"]
                               Demo.start)
    as [[o w'] t] eqn:R.
  assert (Ho : o = Returned tt)
    by (vm_compute in R; now injection R as <- _ _).
  exact (proj1 (proj2 (T _ _ _ _ R)) Ho).
Defined.

(** With the working directory gone, a relative argument ends the run
    before anything is emitted; an absolute one is resolved as ever. *)
Example update_directories_in_a_removed_directory :
  let host := without_cwd (Demo.host Demo.srv Demo.quiet) in
  let w0 := mkWorld tt "/gone" in
  update_directories host ["a"] w0 = (Raised OSError, w0, [])
  /\ level0_lines (update_directories host ["/srv/b"] w0).2
     = ["Directory '/srv/b' is a git repository:"].
Proof. vm_compute. repeat split. Qed.

(** A bookmark that cannot be listed costs one error line; the
    bookmarks after it are processed exactly as they would have been
    without it. *)
Theorem inaccessible_bookmark_is_skipped {X : Type} (h : Host X)
        (w : World X) (path name : string) (rest : list (string * string)) :
  host_listdir h w path = None ->
  rest <> [] ->
  update_bookmarks h ((path, name) :: rest) w
  = (let '(o, w', t) := update_bookmarks h rest w in
     (o, w', Out 0 (cannot_enter_error h true path) :: t)).
Proof.
  intros Hls Hrest. destruct rest as [|b rest]; [contradiction|].
  unfold update_bookmarks. cbn [for_each]. unfold bind at 1.
  rewrite update_directory_run, Hls. reflexivity.
Qed.

Lemma inaccessible_bookmark_is_skipped_witness :
  level0_lines
    (update_bookmarks (Demo.host Demo.srv Demo.quiet)
                      [("/nowhere", "n"); ("/srv/b", "b")] Demo.start).2
  = "Error: cannot enter bookmark '/nowhere'; does it exist?"
      :: level0_lines
           (update_bookmarks (Demo.host Demo.srv Demo.quiet)
                             [("/srv/b", "b")] Demo.start).2.
Proof.
  rewrite (inaccessible_bookmark_is_skipped
             (Demo.host Demo.srv Demo.quiet) Demo.start "/nowhere" "n"
             [("/srv/b", "b")] eq_refl);
    [|discriminate].
  destruct (update_bookmarks (Demo.host Demo.srv Demo.quiet)
                             [("/srv/b", "b")] Demo.start) as [[o w'] t].
  reflexivity.
Defined.

(** A repository whose dry-run fetch fails does not stop the others:
    after its error report the loop goes on with the next repository,
    from the directory of the failed one. *)
Theorem failed_fetch_does_not_stop_the_others {X : Type} (h : Host X)
        (w : World X) (repo_path repo_name : string)
        (rest : list (string * string)) (x : X) :
  host_chdir h w repo_path = true ->
  host_run h (mkWorld (ext w) (Py.os_path_join (cwd w) repo_path)) fetch_argv
  = (inl CalledProcessError, x) ->
  update_each h ((repo_path, repo_name) :: rest) w
  = (let dir := Py.os_path_join (cwd w) repo_path in
     let '(o, w', t) := update_each h rest (mkWorld x dir) in
     (o, w',
      Out 1 (bold h repo_name ++ ":") :: Chdir repo_path
        :: Exec dir fetch_argv (inl CalledProcessError)
        :: Out 2 (fetch_error_report h) :: t)).
Proof.
  intros Hcd Hf.
  assert (R : _update_repository h repo_path repo_name w
              = (Returned tt,
                 mkWorld x (Py.os_path_join (cwd w) repo_path),
                 ([Out 1 (bold h repo_name ++ ":")] ++ [Chdir repo_path] ++
                  [Exec (Py.os_path_join (cwd w) repo_path) fetch_argv
                        (inl CalledProcessError)] ++
                  [Out 2 (fetch_error_report h)])%list)).
  { unfold _update_repository.
    eapply bind_returned; [reflexivity|].
    eapply bind_returned; [unfold os_chdir; rewrite Hcd; reflexivity|].
    eapply bind_returned;
      [ eapply try_caught;
        [eapply exec_shell_raised; [reflexivity | exact Hf] | reflexivity]
      | reflexivity ]. }
  unfold update_each. cbn [for_each]. unfold bind at 1. rewrite R.
  cbv zeta.
  destruct (for_each rest _ _) as [[o w'] t]. reflexivity.
Qed.

Lemma failed_fetch_does_not_stop_the_others_witness :
  updated_paths
    (update_each (Demo.host Demo.srv Demo.no_remote)
                 [("/srv/a", "a"); ("/srv/b", "b")] Demo.start).2
  = ["/srv/a"; "/srv/b"].
Proof.
  rewrite (failed_fetch_does_not_stop_the_others
             (Demo.host Demo.srv Demo.no_remote) Demo.start "/srv/a" "a"
             [("/srv/b", "b")] tt eq_refl eq_refl).
  vm_compute. reflexivity.
Defined.

(** ** [_exec_shell] *)

(** A call of [_exec_shell] makes at most one child process.  With a
    command line that names a program it makes exactly one, run in the
    current directory, which stays the current directory: a failure to
    run it, or a non-zero exit status, is raised as it is; empty
    output comes back empty, and a line comes back without its
    newline.  With a blank command line there is no program to run and
    with an unterminated quotation no command line at all: the call
    raises before any child process exists, and nothing has changed. *)
Theorem exec_shell_is_one_child_process {X : Type} (h : Host X)
        (w : World X) (command : string) :
  (forall program args,
      Shlex.split command = Some (program :: args) ->
      exists result x o,
        host_run h w (program :: args) = (result, x)
        /\ _exec_shell h command w
           = (o, mkWorld x (cwd w),
              [Exec (cwd w) (program :: args) result])
        /\ (forall e, result = inl e -> o = Raised e)
        /\ (result = inr EmptyString -> o = Returned EmptyString)
        /\ (forall line, result = inr (line ++ Demo.newline) ->
                         o = Returned line))
  /\ (Shlex.split command = Some [] ->
      _exec_shell h command w = (Raised IndexError, w, []))
  /\ (Shlex.split command = None ->
      _exec_shell h command w = (Raised ValueError, w, [])).
Proof.
  split; [|split].
  - intros program args E. rewrite (exec_shell_run h _ _ _ w E).
    destruct (host_run h w (program :: args)) as [result x].
    do 3 eexists. split; [reflexivity|]. split; [reflexivity|].
    cbn [fst]. repeat split.
    + now intros e ->.
    + now intros ->.
    + intros line ->. now rewrite text_of_line.
  - apply exec_shell_blank.
  - apply exec_shell_malformed.
Qed.

Lemma exec_shell_is_one_child_process_witness :
  _exec_shell (Demo.host Demo.srv Demo.quiet)
              ("git log -n 1 --pretty=" ++ dq "%ar") (mkWorld tt "/srv/a")
  = (Returned "2 days ago", mkWorld tt "/srv/a",
     [Exec "/srv/a" log_argv (inr ("2 days ago" ++ Demo.newline))])
  /\ _exec_shell (Demo.host Demo.srv Demo.quiet) "   " Demo.start
     = (Raised IndexError, Demo.start, [])
  /\ _exec_shell (Demo.host Demo.srv Demo.quiet) "git 'log" Demo.start
     = (Raised ValueError, Demo.start, []).
Proof.
  split; [|split].
  - destruct (proj1 (exec_shell_is_one_child_process
                       (Demo.host Demo.srv Demo.quiet) (mkWorld tt "/srv/a")
                       ("git log -n 1 --pretty=" ++ dq "%ar"))
                    "git" ["log"; "-n"; "1"; "--pretty=%ar"] eq_refl)
      as (result & x & o & Hrun & -> & _ & _ & Hline).
    injection Hrun as <- <-.
    now rewrite (Hline "2 days ago" eq_refl).
  - apply (exec_shell_is_one_child_process
             (Demo.host Demo.srv Demo.quiet) Demo.start "   ").
    reflexivity.
  - apply (exec_shell_is_one_child_process
             (Demo.host Demo.srv Demo.quiet) Demo.start "git 'log").
    reflexivity.
Defined.

(** ** Where a run leaves the process *)

Section WorkingDirectory.

Context {X : Type} (h : Host X).

Lemma update_repository_lands repo_path repo_name (w w' : World X) t :
  _update_repository h repo_path repo_name w = (Returned tt, w', t) ->
  cwd w' = List.fold_left Py.os_path_join (updated_paths t) (cwd w).
Proof.
  intros R. pose proof (update_repository_footprint h _ _ _ _ _ _ R) as [P _].
  apply update_repository_cases in R as [_ C]. rewrite P. cbn [List.fold_left].
  destruct (host_chdir h w repo_path); [exact C|].
  destruct C as [_ C]. discriminate C.
Qed.

Lemma for_each_lands {A} (body : A -> M X unit) (xs : list A) :
  (forall x w w' t,
      body x w = (Returned tt, w', t) ->
      cwd w' = List.fold_left Py.os_path_join (updated_paths t) (cwd w)) ->
  forall w w' t,
    for_each xs body w = (Returned tt, w', t) ->
    cwd w' = List.fold_left Py.os_path_join (updated_paths t) (cwd w).
Proof.
  intros Hbody. induction xs as [|x xs IH]; intros w w' t R.
  - injection R as <- <-. reflexivity.
  - cbn [for_each] in R. unfold bind in R.
    destruct (body x w) as [[[[]|e1] w1] t1] eqn:R1; [|discriminate R].
    destruct (for_each xs body w1) as [[o2 w2] t2] eqn:R2.
    injection R as -> <- <-.
    rewrite updated_paths_app, List.fold_left_app.
    rewrite <- (Hbody _ _ _ _ R1). now apply IH.
Qed.

Lemma update_directory_lands dir_path dir_name is_bookmark (w w' : World X) t :
  _update_directory h dir_path dir_name is_bookmark w = (Returned tt, w', t) ->
  cwd w' = List.fold_left Py.os_path_join (updated_paths t) (cwd w).
Proof.
  rewrite update_directory_run.
  destruct (host_listdir h w dir_path) as [names|];
    [| intros R; injection R as <- <-; reflexivity].
  destruct (host_stat h w dir_path) as [[]|];
    try (intros R; injection R as <- <-; reflexivity).
  destruct (is_git_repo_at h w dir_path).
  - destruct (_update_repository h dir_path dir_name w)
      as [[o1 w1] t1] eqn:R1.
    intros R. injection R as -> <- <-. cbn [updated_paths].
    now apply update_repository_lands in R1.
  - destruct (update_each h _ w) as [[o1 w1] t1] eqn:R1.
    intros R. injection R as -> <- <-. cbn [updated_paths].
    unfold update_each in R1. apply for_each_lands in R1; [exact R1|].
    intros [p n] w0 w0' t0. apply update_repository_lands.
Qed.

End WorkingDirectory.

(** Nothing ever sets the working directory back: when the Resolver
    or a batch driver returns, the process is where the repositories
    it entered one after the other have led it, each path resolved
    against the directory the one before had left; with no repository
    entered it is where it started. *)
Theorem working_directory_follows_the_repositories {X : Type} (h : Host X)
        (w w' : World X) (t : list event) :
  (forall dir_path dir_name is_bookmark,
      _update_directory h dir_path dir_name is_bookmark w
      = (Returned tt, w', t) ->
      cwd w' = List.fold_left Py.os_path_join (updated_paths t) (cwd w))
  /\ (forall bookmarks,
         update_bookmarks h bookmarks w = (Returned tt, w', t) ->
         cwd w' = List.fold_left Py.os_path_join (updated_paths t) (cwd w))
  /\ (forall paths,
         update_directories h paths w = (Returned tt, w', t) ->
         cwd w' = List.fold_left Py.os_path_join (updated_paths t) (cwd w)).
Proof.
  split; [|split].
  - intros. eapply update_directory_lands; eassumption.
  - intros [|b rest] R.
    + injection R as <- <-. reflexivity.
    + unfold update_bookmarks in R. apply for_each_lands in R; [exact R|].
      intros [p n] w0 w0' t0. apply update_directory_lands.
  - intros paths R. unfold update_directories in R.
    apply for_each_lands in R; [exact R|].
    intros path w0 w0' t0 R0.
    destruct (update_directories_step h path w0) as [[E G] | [path' E]];
      rewrite E in R0; [discriminate R0|].
    eapply update_directory_lands. exact R0.
Qed.

Lemma working_directory_follows_the_repositories_witness :
  cwd (update_bookmarks (Demo.host Demo.srv Demo.quiet)
                        [("/srv", "all"); ("/nowhere", "n")] Demo.start).1.2
  = "/srv/c".
Proof.
  destruct (update_bookmarks (Demo.host Demo.srv Demo.quiet)
                             [("/srv", "all"); ("/nowhere", "n")] Demo.start)
    as [[o w'] t] eqn:R.
  assert (Ho : o = Returned tt)
    by (vm_compute in R; now injection R as <- _ _).
  subst o.
  destruct (working_directory_follows_the_repositories
              (Demo.host Demo.srv Demo.quiet) Demo.start w' t)
    as (_ & Hb & _).
  cbn [fst snd]. rewrite (Hb _ R).
  vm_compute in R. injection R as _ <-. reflexivity.
Defined.
